(** * match.ts: the fluent pattern-matching class [Match] and its
      structural matcher, embedded and verified.

    The development follows src/match.ts.  JavaScript values are a tagged
    union; numbers are IEEE-754 binary64 (Rocq's primitive floats), so that
    [===], [<=] and [>=] on them are the comparisons the source runs.
    A method of the class is a function from the receiver [this] to a
    computation that returns the receiver: the computation can throw, and it
    records every call of a caller-supplied callback in a log. *)

From Stdlib Require Import List String Bool Arith Lia ZArith Uint63.
From Stdlib Require Import PrimFloat SpecFloat FloatOps FloatAxioms.
From Stdlib Require Import Permutation.
From Stdlib Require Import DecimalString.
Import ListNotations.
Local Open Scope string_scope.
Local Open Scope list_scope.
Set Warnings "-register-all".

(** ** Values *)

Module JS.

(** Identity of an object: two object values are [===] iff they are the same
    object. *)
Definition Ref := nat.

(** What an object has besides its own enumerable properties: the identities
    of the prototype objects on its chain (what the ordinary [instanceof]
    walks), and the properties that [in] and [[]] see and [Object.entries]
    does not list, which are its own non-enumerable properties followed by
    the properties it inherits, nearest prototype first. *)
Record Inherited (V : Type) : Type := {
  prototypes : list Ref;
  hidden : list (string * V)
}.
Arguments prototypes {V} _.
Arguments hidden {V} _.
Arguments Build_Inherited {V} _ _.

(** The values a subject or a pattern can be.  An object carries its
    identity, what it has besides its own enumerable properties, and its own
    enumerable string-keyed properties in the order [Object.entries] lists
    them.  An array is a standard array: dense, with no property of its own
    but its elements and [length], inheriting from [Array.prototype].
    Values are finite trees: a cyclic object graph is not a value of this
    type.  Strings are sequences of code units below 256.  Functions are
    not values of this type, and a property whose value is a function is
    left out of an object: the matcher calls no method of a value but
    [every] of an array, and it compares what it reads with [===], under
    which a function equals no value of this type. *)
Inductive Value : Type :=
| VUndefined
| VNull
| VBool (b : bool)
| VNum (n : float)
| VStr (s : string)
| VArr (r : Ref) (elems : list Value)
| VObj (r : Ref) (protos : Inherited Value) (props : list (string * Value)).

(** [typeof v] *)
Definition typeof (v : Value) : string :=
  match v with
  | VUndefined => "undefined"
  | VNull => "object"
  | VBool _ => "boolean"
  | VNum _ => "number"
  | VStr _ => "string"
  | VArr _ _ => "object"
  | VObj _ _ _ => "object"
  end.

(** [a === b]: numbers by IEEE equality (NaN differs from itself, +0 equals
    -0), other primitives by value, objects and arrays by identity. *)
Definition strict_equals (a b : Value) : bool :=
  match a, b with
  | VUndefined, VUndefined => true
  | VNull, VNull => true
  | VBool x, VBool y => Bool.eqb x y
  | VNum x, VNum y => PrimFloat.eqb x y
  | VStr x, VStr y => String.eqb x y
  | VArr r _, VArr r' _ => Nat.eqb r r'
  | VObj r _ _, VObj r' _ _ => Nat.eqb r r'
  | _, _ => false
  end.

(** [Array.isArray(v)] *)
Definition isArray (v : Value) : bool :=
  match v with VArr _ _ => true | _ => false end.

(** The number a length is (lengths are below 2^32, where the conversion is
    exact). *)
Definition number_of_nat (n : nat) : float :=
  PrimFloat.of_uint63 (Uint63.of_Z (Z.of_nat n)).

(** The property key of an array index: its decimal numeral. *)
Definition key_of_index (i : nat) : string :=
  NilEmpty.string_of_uint (Nat.to_uint i).

(** The index below [n] whose key is [k], if there is one. *)
Definition index_of_key (k : string) (n : nat) : option nat :=
  find (fun i => String.eqb (key_of_index i) k) (seq 0 n).

Fixpoint lookup (k : string) (props : list (string * Value)) : option Value :=
  match props with
  | [] => None
  | (k', v) :: rest => if String.eqb k k' then Some v else lookup k rest
  end.

(** The built-in prototype objects, by identity and as values; no other
    object has their identities.  [Object.prototype] has the accessor
    [__proto__], which reads [null] off it, and no prototype;
    [Array.prototype] is an empty array. *)
Definition Object_prototype : Ref := 0.
Definition Array_prototype : Ref := 10.

Definition Object_prototype_value : Value :=
  VObj Object_prototype {| prototypes := []; hidden := [("__proto__", VNull)] |} [].
Definition Array_prototype_value : Value := VArr Array_prototype [].

(** What an array inherits: [__proto__], which reads its prototype off it,
    [Array.prototype], whose own prototype is [Object.prototype]. *)
Definition array_hidden (r : Ref) : list (string * Value) :=
  [("__proto__", if Nat.eqb r Array_prototype then Object_prototype_value
                 else Array_prototype_value)].

(** The property [k] of [o] as [in] and [[]] find it, own properties before
    the others; for an [o] with [typeof o === 'object'] that is not
    [null]. *)
Definition property (o : Value) (k : string) : option Value :=
  match o with
  | VArr r elems =>
      if String.eqb k "length" then Some (VNum (number_of_nat (List.length elems)))
      else match index_of_key k (List.length elems) with
           | Some i => Some (nth i elems VUndefined)
           | None => lookup k (array_hidden r)
           end
  | VObj _ protos props =>
      match lookup k props with
      | Some v => Some v
      | None => lookup k (hidden protos)
      end
  | _ => None
  end.

(** [k in o] *)
Definition has_property (k : string) (o : Value) : bool :=
  match property o k with Some _ => true | None => false end.

(** [o[k]]; [undefined] when [o] has no such property. *)
Definition get_property (o : Value) (k : string) : Value :=
  match property o k with Some v => v | None => VUndefined end.

(** [!!v] *)
Definition truthy (v : Value) : bool :=
  match v with
  | VUndefined | VNull => false
  | VBool b => b
  | VNum n => negb (PrimFloat.eqb n 0%float || PrimFloat.is_nan n)
  | VStr s => negb (String.eqb s "")
  | VArr _ _ | VObj _ _ _ => true
  end.

(** The identities of the prototype objects on the chain of [v]; a primitive
    has none. *)
Definition prototype_chain (v : Value) : list Ref :=
  match v with
  | VArr r _ =>
      if Nat.eqb r Array_prototype then [Object_prototype]
      else [Array_prototype; Object_prototype]
  | VObj _ protos _ => prototypes protos
  | _ => []
  end.

(** The ordinary [instanceof]: the prototype chain of [v] is searched for
    the prototype object [proto] of the constructor. *)
Definition OrdinaryHasInstance (v : Value) (proto : Ref) : bool :=
  existsb (Nat.eqb proto) (prototype_chain v).

End JS.
Export JS.

(** ** Results and errors *)

Inductive Error : Type :=
| TypeError
| NonExhaustive          (* new Error('Non-exhaustive pattern matching') *)
| Raised (tag : nat)     (* whatever a caller's callback throws *)
| Unmodelled.            (* the source goes on with a conversion of a string
                            or of an object to a number *)

Inductive result (A : Type) : Type :=
| Ok (a : A)
| Throw (e : Error).
Arguments Ok {A} a.
Arguments Throw {A} e.

Definition rbind {A B} (c : result A) (k : A -> result B) : result B :=
  match c with Ok a => k a | Throw e => Throw e end.

(** ** Array.prototype.every and some, over callbacks that can throw *)

Section Every.
Context {A : Type} (f : nat -> A -> result bool).

(** [l.every((x, i) => f(i, x))], with [i] counted from [start]: the first
    [false] ends the walk, and so does the first exception. *)
Fixpoint every_from (start : nat) (l : list A) : result bool :=
  match l with
  | [] => Ok true
  | x :: rest =>
      match f start x with
      | Ok true => every_from (S start) rest
      | Ok false => Ok false
      | Throw e => Throw e
      end
  end.

Definition every (l : list A) : result bool := every_from 0 l.

(** [l.some((x, i) => f(i, x))]: the first [true] ends the walk, and so does
    the first exception. *)
Fixpoint some_from (start : nat) (l : list A) : result bool :=
  match l with
  | [] => Ok false
  | x :: rest =>
      match f start x with
      | Ok true => Ok true
      | Ok false => some_from (S start) rest
      | Throw e => Throw e
      end
  end.

Definition some (l : list A) : result bool := some_from 0 l.

End Every.

(** ** The structural matcher *)

(** [o.k] for the keys the source reads this way, [length] and [elements],
    on any [o]: a TypeError on [undefined] and [null], [undefined] where [o]
    has no such property. *)
Definition Get (o : Value) (k : string) : result Value :=
  match o with
  | VUndefined | VNull => Throw TypeError
  | VBool _ | VNum _ => Ok VUndefined
  | VStr s =>
      if String.eqb k "length" then Ok (VNum (number_of_nat (String.length s)))
      else match index_of_key k (String.length s) with
           | Some i => Ok (VStr (String.substring i 1 s))
           | None => Ok VUndefined
           end
  | VArr _ _ | VObj _ _ _ => Ok (get_property o k)
  end.

(** [n < x] for the length [n] of an array, as [value.length < x] evaluates
    it after the conversion of [x] to a number: [undefined] becomes NaN,
    [null] and [false] zero, [true] one.  The conversion of a string or of
    an object is not modelled. *)
Definition length_less_than (n : nat) (x : Value) : result bool :=
  match x with
  | VUndefined | VNull => Ok false
  | VBool b => Ok (b && Nat.eqb n 0)
  | VNum y => Ok (PrimFloat.ltb (number_of_nat n) y)
  | VStr _ | VArr _ _ | VObj _ _ _ => Throw Unmodelled
  end.

Section Matcher.

(** The two properties [isArrayMatch] reads off a pattern. *)
Inductive PatternKey : Type := key_length | key_elements.

Definition key_name (k : PatternKey) : string :=
  match k with key_length => "length" | key_elements => "elements" end.

(** Reading [pattern.length] or [pattern.elements] and going on with its
    value: [Get], then the continuation.  The continuation is applied to the
    property itself, which keeps the recursion of [isDeepMatch] on the
    pattern structural. *)
Section With_property.
Context {R : Type} (k : PatternKey) (cont : Value -> result R).

Fixpoint with_lookup (absent : result R) (props : list (string * Value))
  : result R :=
  match props with
  | [] => absent
  | (k', v) :: rest =>
      if String.eqb (key_name k) k' then cont v else with_lookup absent rest
  end.

Definition with_property (pattern : Value) : result R :=
  match pattern with
  | VUndefined | VNull => Throw TypeError
  | VBool _ | VNum _ => cont VUndefined
  | VStr s =>
      match k with
      | key_length => cont (VNum (number_of_nat (String.length s)))
      | key_elements => cont VUndefined
      end
  | VArr _ elems =>
      match k with
      | key_length => cont (VNum (number_of_nat (List.length elems)))
      | key_elements => cont VUndefined
      end
  | VObj _ protos props =>
      match protos with
      | Build_Inherited _ inherited =>
          with_lookup (with_lookup (cont VUndefined) inherited) props
      end
  end.

End With_property.

(** [Object.entries(pattern).every(([key, val]) => f(key, val))], for a
    pattern with [typeof pattern === 'object'] that is not [null]. *)
Definition entries_every (f : string -> Value -> result bool) (pattern : Value)
  : result bool :=
  match pattern with
  | VArr _ elems => every (fun i val => f (key_of_index i) val) elems
  | VObj _ _ props => every (fun _ kv => f (fst kv) (snd kv)) props
  | _ => Ok true
  end.

(** [isArrayPattern(pattern)] *)
Definition isArrayPattern (pattern : Value) : bool :=
  String.eqb (typeof pattern) "object" && negb (strict_equals pattern VNull) &&
  (has_property "length" pattern || has_property "elements" pattern).

(** The body of [isArrayMatch], over the [isDeepMatch] it calls.  On a
    truthy [elements] that is no array (which [interface ArrayPattern]
    excludes) the source compares [value.length] with
    [pattern.elements.length], returns [false] if it is less, and otherwise
    calls [pattern.elements.every], which no such value of this type has: a
    TypeError. *)
Definition isArrayMatch_body (isDeepMatch : Value -> Value -> result bool)
    (value : list Value) (pattern : Value) : result bool :=
  with_property key_length (fun len =>
    if negb (strict_equals len VUndefined) &&
       negb (strict_equals (VNum (number_of_nat (List.length value))) len)
    then Ok false
    else
      with_property key_elements (fun elements =>
        if truthy elements then
          match elements with
          | VArr _ elems =>
              if Nat.ltb (List.length value) (List.length elems) then Ok false
              else every (fun i elem => isDeepMatch (nth i value VUndefined) elem) elems
          | _ =>
              rbind (Get elements "length") (fun n =>
              rbind (length_less_than (List.length value) n) (fun shorter =>
                if shorter then Ok false else Throw TypeError))
          end
        else Ok true) pattern) pattern.

(** [isDeepMatch(value, pattern)]; the recursion is on the pattern. *)
Fixpoint isDeepMatch (value pattern : Value) {struct pattern} : result bool :=
  if negb (String.eqb (typeof value) "object") || strict_equals value VNull then
    Ok (strict_equals value pattern)
  else if isArray value && isArrayPattern pattern then
    match value with
    | VArr _ elems => isArrayMatch_body isDeepMatch elems pattern
    | _ => Ok false
    end
  else if String.eqb (typeof pattern) "object" && negb (strict_equals pattern VNull) then
    entries_every (fun key val =>
      if negb (has_property key value) then Ok false
      else isDeepMatch (get_property value key) val) pattern
  else Ok false.

(** [isArrayMatch(value, pattern)], for the elements of an array [value]. *)
Definition isArrayMatch (value : list Value) (pattern : Value) : result bool :=
  isArrayMatch_body isDeepMatch value pattern.

End Matcher.

(** ** Callbacks and their effects *)

(** A handler is a caller's callback [(value) => void].  The class never
    looks at what a handler returns, so a handler is known here by its name,
    and calling it is recorded.  Handlers return normally and do not touch
    the session they are called from. *)
Definition Matcher := nat.

(** A predicate of [withAll] and [withAny]: a caller's type guard
    [(value) => value is S], which answers or throws.  Calling it is
    recorded too.  What a guard does depends on the value it is called on
    and on nothing else: it keeps no state of its own between calls. *)
Record Guard : Type := { guard_name : nat; guard_test : Value -> result bool }.

(** The argument of [withInstance]: a constructor, by the identity of its
    [prototype] object and by its [Symbol.hasInstance] method when it
    defines one. *)
Record Constructor : Type := {
  prototype : Ref;
  hasInstance : option Guard
}.

Inductive Event : Type :=
| Handled (fn : Matcher) (arg : Value)
| Tested (p : nat) (arg : Value).

(** A computation: from the log so far to an outcome and the log after.
    What was logged before an exception stays logged. *)
Definition Eff (A : Type) : Type := list Event -> result A * list Event.

Definition ret {A} (a : A) : Eff A := fun log => (Ok a, log).
Definition throw {A} (e : Error) : Eff A := fun log => (Throw e, log).
Definition bind {A B} (c : Eff A) (k : A -> Eff B) : Eff B :=
  fun log =>
    match c log with
    | (Ok a, log') => k a log'
    | (Throw e, log') => (Throw e, log')
    end.
Definition lift {A} (r : result A) : Eff A := fun log => (r, log).

Declare Scope eff_scope.
Delimit Scope eff_scope with eff.
Notation "x <- c ;; k" := (bind c (fun x => k))
  (at level 61, c at next level, right associativity) : eff_scope.
Notation "c ;; k" := (bind c (fun _ => k))
  (at level 61, right associativity) : eff_scope.
(** JavaScript's short-circuit [a && b]. *)
Notation "a &&& b" := (if a then b else ret false)
  (at level 40, left associativity) : eff_scope.
Local Open Scope eff_scope.

(** [fn(arg)] *)
Definition call (fn : Matcher) (arg : Value) : Eff unit :=
  fun log => (Ok tt, log ++ [Handled fn arg]).

(** [p(arg)]: the call is made, and it answers or throws. *)
Definition test (p : Guard) (arg : Value) : Eff bool :=
  fun log => (guard_test p arg, log ++ [Tested (guard_name p) arg]).

(** [patterns.every(p => p(arg))] and [patterns.some(p => p(arg))] *)
Fixpoint every_guard (patterns : list Guard) (arg : Value) : Eff bool :=
  match patterns with
  | [] => ret true
  | p :: rest => b <- test p arg ;; if b then every_guard rest arg else ret false
  end.

Fixpoint some_guard (patterns : list Guard) (arg : Value) : Eff bool :=
  match patterns with
  | [] => ret false
  | p :: rest => b <- test p arg ;; if b then ret true else some_guard rest arg
  end.

(** [v instanceof constructor]: the [Symbol.hasInstance] method of the
    constructor when it defines one, the ordinary search otherwise. *)
Definition instanceof (v : Value) (constructor : Constructor) : Eff bool :=
  match hasInstance constructor with
  | Some method => test method v
  | None => ret (OrdinaryHasInstance v (prototype constructor))
  end.

(** ** class Match *)

Record Match : Type := {
  value : Value;
  matched : bool;
  exhaustiveCheck : bool
}.

(** [this.matched = true] and [this.exhaustiveCheck = false] *)
Definition set_matched (this : Match) : Match :=
  {| value := value this; matched := true; exhaustiveCheck := exhaustiveCheck this |}.
Definition clear_exhaustiveCheck (this : Match) : Match :=
  {| value := value this; matched := matched this; exhaustiveCheck := false |}.

(** The shared body of the clauses: [if (cond) { this.matched = true;
    fn(this.value); } return this;] *)
Definition fire_if (cond : bool) (fn : Matcher) (this : Match) : Eff Match :=
  if cond then
    let this' := set_matched this in
    call fn (value this') ;; ret this'
  else ret this.

Definition withShape (shape : Value) (fn : Matcher) (this : Match) : Eff Match :=
  cond <- negb (matched this) &&& lift (isDeepMatch (value this) shape) ;;
  fire_if cond fn this.

Definition withArray (pattern : Value) (fn : Matcher) (this : Match) : Eff Match :=
  cond <- negb (matched this) &&&
          match value this with
          | VArr _ elems => lift (isArrayMatch elems pattern)
          | _ => ret false
          end ;;
  fire_if cond fn this.

Definition withAll (patterns : list Guard) (fn : Matcher) (this : Match) : Eff Match :=
  cond <- negb (matched this) &&& every_guard patterns (value this) ;;
  fire_if cond fn this.

Definition withAny (patterns : list Guard) (fn : Matcher) (this : Match) : Eff Match :=
  cond <- negb (matched this) &&& some_guard patterns (value this) ;;
  fire_if cond fn this.

Definition withInstance (constructor : Constructor) (fn : Matcher) (this : Match)
  : Eff Match :=
  cond <- negb (matched this) &&& instanceof (value this) constructor ;;
  fire_if cond fn this.

Definition with_ (pattern : Value) (fn : Matcher) (this : Match) : Eff Match :=
  fire_if (negb (matched this) && strict_equals (value this) pattern) fn this.

(** [v >= x] and [v <= x] for a [v] that is a number. *)
Definition number_ge (v : Value) (x : float) : bool :=
  match v with VNum n => PrimFloat.leb x n | _ => false end.
Definition number_le (v : Value) (x : float) : bool :=
  match v with VNum n => PrimFloat.leb n x | _ => false end.

Definition in_range (v : Value) (start end_ : float) : bool :=
  String.eqb (typeof v) "number" && number_ge v start && number_le v end_.

Definition withRange (start end_ : float) (fn : Matcher) (this : Match) : Eff Match :=
  fire_if (in_range (value this) start end_) fn this.

Definition otherwise (fn : Matcher) (this : Match) : Eff unit :=
  (if negb (matched this) then call fn (value this) else ret tt) ;;
  if exhaustiveCheck this && negb (matched this) then throw NonExhaustive
  else ret tt.

Definition nonExhaustive (this : Match) : Eff Match :=
  ret (clear_exhaustiveCheck this).

(** [match(value)] *)
Definition match_ (v : Value) : Match :=
  {| value := v; matched := false; exhaustiveCheck := true |}.

(** ** Chains of calls *)

(** One call of a chaining method, as written at the call site. *)
Inductive Call : Type :=
| Call_with (pattern : Value) (fn : Matcher)
| Call_withShape (shape : Value) (fn : Matcher)
| Call_withArray (pattern : Value) (fn : Matcher)
| Call_withAll (patterns : list Guard) (fn : Matcher)
| Call_withAny (patterns : list Guard) (fn : Matcher)
| Call_withInstance (constructor : Constructor) (fn : Matcher)
| Call_withRange (start end_ : float) (fn : Matcher)
| Call_nonExhaustive.

Definition invoke (c : Call) : Match -> Eff Match :=
  match c with
  | Call_with pattern fn => with_ pattern fn
  | Call_withShape shape fn => withShape shape fn
  | Call_withArray pattern fn => withArray pattern fn
  | Call_withAll patterns fn => withAll patterns fn
  | Call_withAny patterns fn => withAny patterns fn
  | Call_withInstance constructor fn => withInstance constructor fn
  | Call_withRange start end_ fn => withRange start end_ fn
  | Call_nonExhaustive => nonExhaustive
  end.

(** [this.c1(...).c2(...)...] *)
Fixpoint chain (cs : list Call) (this : Match) : Eff Match :=
  match cs with
  | [] => ret this
  | c :: rest => this' <- invoke c this ;; chain rest this'
  end.

(** [match(v).c1(...)...cn(...).otherwise(fallback)] *)
Definition run (v : Value) (cs : list Call) (fallback : Matcher) : Eff unit :=
  this <- chain cs (match_ v) ;; otherwise fallback this.

(** The handler calls of a log, in order. *)
Fixpoint handled (log : list Event) : list (Matcher * Value) :=
  match log with
  | [] => []
  | Handled fn arg :: rest => (fn, arg) :: handled rest
  | Tested _ _ :: rest => handled rest
  end.
(** ** Vocabulary of the statements *)

(** The six clauses that test [!this.matched] first. *)
Definition checks_matched (c : Call) : bool :=
  match c with
  | Call_with _ _ | Call_withShape _ _ | Call_withArray _ _
  | Call_withAll _ _ | Call_withAny _ _ | Call_withInstance _ _ => true
  | Call_withRange _ _ _ | Call_nonExhaustive => false
  end.

Definition is_range (c : Call) : bool :=
  match c with Call_withRange _ _ _ => true | _ => false end.

Definition handler_of (c : Call) : option Matcher :=
  match c with
  | Call_with _ fn | Call_withShape _ fn | Call_withArray _ fn
  | Call_withAll _ fn | Call_withAny _ fn | Call_withInstance _ fn
  | Call_withRange _ _ fn => Some fn
  | Call_nonExhaustive => None
  end.

(** What the predicate of a clause answers on a subject [v]: the operand of
    the clause's [if] that does not mention [this.matched]. *)
Definition predicate (c : Call) (v : Value) : result bool :=
  match c with
  | Call_with pattern _ => Ok (strict_equals v pattern)
  | Call_withShape shape _ => isDeepMatch v shape
  | Call_withArray pattern _ =>
      match v with VArr _ elems => isArrayMatch elems pattern | _ => Ok false end
  | Call_withAll patterns _ => every (fun _ p => guard_test p v) patterns
  | Call_withAny patterns _ => some (fun _ p => guard_test p v) patterns
  | Call_withInstance constructor _ =>
      match hasInstance constructor with
      | Some method => guard_test method v
      | None => Ok (OrdinaryHasInstance v (prototype constructor))
      end
  | Call_withRange start end_ _ => Ok (in_range v start end_)
  | Call_nonExhaustive => Ok false
  end.

(** Whether a call fires its handler on the session [this]. *)
Definition fires (c : Call) (this : Match) : result bool :=
  if checks_matched c && matched this then Ok false
  else predicate c (value this).

(** The handler calls of the range clauses of [cs] on a subject [v]. *)
Fixpoint range_firings (cs : list Call) (v : Value) : list (Matcher * Value) :=
  match cs with
  | [] => []
  | Call_withRange start end_ fn :: rest =>
      if in_range v start end_ then (fn, v) :: range_firings rest v
      else range_firings rest v
  | _ :: rest => range_firings rest v
  end.

(** [typeof v === 'object' && v !== null] *)
Definition is_object (v : Value) : bool :=
  String.eqb (typeof v) "object" && negb (strict_equals v VNull).

(** [Object.entries(pattern)] *)
Fixpoint index_entries (start : nat) (elems : list Value) : list (string * Value) :=
  match elems with
  | [] => []
  | v :: rest => (key_of_index start, v) :: index_entries (S start) rest
  end.

Definition entries (pattern : Value) : list (string * Value) :=
  match pattern with
  | VArr _ elems => index_entries 0 elems
  | VObj _ _ props => props
  | _ => []
  end.

(** An entry [(key, subPattern)] of a pattern is met by [value]: the key
    exists in the value and [value[key]] deep-matches the sub-pattern. *)
Definition entry_met (value : Value) (kv : string * Value) : Prop :=
  has_property (fst kv) value = true /\
  isDeepMatch (get_property value (fst kv)) (snd kv) = Ok true.

(** A call is one of the six that test [!this.matched]; the predicate of a
    call answers [false] on [v]. *)
Abbreviation tests_matched := (fun c : Call => checks_matched c = true).
Abbreviation unmet v := (fun c : Call => predicate c v = Ok false).

(** Values of the examples: the number of a small natural, an array and a
    plain object by their identities. *)
Definition num (z : Z) : Value := VNum (PrimFloat.of_uint63 (Uint63.of_Z z)).
Definition array (r : Ref) (elems : list Value) : Value := VArr r elems.
Definition object (r : Ref) (props : list (string * Value)) : Value :=
  VObj r {| prototypes := [Object_prototype];
            hidden := [("__proto__", Object_prototype_value)] |} props.

(** [c] is a call of [nonExhaustive]. *)
Definition is_nonExhaustive (c : Call) : bool :=
  match c with Call_nonExhaustive => true | _ => false end.


(** The log entry of a guard called on [v]. *)
Definition tested (v : Value) (p : Guard) : Event := Tested (guard_name p) v.

(** The identity of an array with all taken off it but whether the array is
    [Array.prototype], on which what the array inherits depends. *)
Definition anonymous_ref (r : Ref) : Ref :=
  if Nat.eqb r Array_prototype then Array_prototype else Object_prototype.

(** A value with the identities of its objects and of their prototypes
    taken off, at every depth (all objects get one identity): what is left
    is its structure, the properties it inherits included. *)
Fixpoint anonymous (v : Value) : Value :=
  match v with
  | VArr r elems => VArr (anonymous_ref r) (map anonymous elems)
  | VObj _ protos props =>
      match protos with
      | Build_Inherited _ inherited =>
          VObj Object_prototype
               {| prototypes := [];
                  hidden := map (fun kv => (fst kv, anonymous (snd kv))) inherited |}
               (map (fun kv => (fst kv, anonymous (snd kv))) props)
      end
  | _ => v
  end.



(** A pattern on which the matcher sees structure only. *)
Abbreviation structural pattern :=
  (forall value,
     isDeepMatch (anonymous value) (anonymous pattern) = isDeepMatch value pattern).

(** A pattern whose [elements] are as [interface ArrayPattern] types them:
    at every depth, a property [elements], own or not, is an array, or a
    falsy value, which [isArrayMatch] takes for a missing one. *)
Fixpoint elements_typed (pattern : Value) : bool :=
  match pattern with
  | VArr _ elems => forallb elements_typed elems
  | VObj _ protos props =>
      match protos with
      | Build_Inherited _ inherited =>
          forallb (fun kv => elements_typed (snd kv)) props &&
          forallb (fun kv => elements_typed (snd kv)) inherited &&
          match property pattern "elements" with
          | Some elements => negb (truthy elements) || isArray elements
          | None => true
          end
      end
  | _ => true
  end.

(** A call whose shape or array pattern has typed [elements], the pattern
    of [withArray] being moreover an object.  The signature of [withArray]
    declares as much; that of [withShape] does not, and this is then a
    condition on the shape. *)
Definition elements_typed_call (c : Call) : bool :=
  match c with
  | Call_withShape shape _ => elements_typed shape
  | Call_withArray pattern _ => is_object pattern && elements_typed pattern
  | _ => true
  end.

(** The caller's predicates that a call runs: the guards of [withAll] and
    of [withAny], and the [Symbol.hasInstance] method of the constructor of
    [withInstance], if it has one. *)
Definition guards_of (c : Call) : list Guard :=
  match c with
  | Call_withAll patterns _ | Call_withAny patterns _ => patterns
  | Call_withInstance constructor _ =>
      match hasInstance constructor with
      | Some method => [method]
      | None => []
      end
  | _ => []
  end.

(** Case analysis on the comparisons of exponents and mantissas that the
    order of two floats comes down to. *)
Ltac compare_cases :=
  repeat match goal with
  | |- context [Z.compare ?a ?b] => destruct (Z.compare_spec a b); subst
  | H : context [Z.compare ?a ?b] |- _ => destruct (Z.compare_spec a b); subst
  | |- context [Pos.compare_cont Eq ?a ?b] =>
      change (Pos.compare_cont Eq a b) with (Pos.compare a b);
      destruct (Pos.compare_spec a b); subst
  | H : context [Pos.compare_cont Eq ?a ?b] |- _ =>
      change (Pos.compare_cont Eq a b) with (Pos.compare a b) in H;
      destruct (Pos.compare_spec a b); subst
  end.

(** ** The log *)

Lemma handled_app (l1 l2 : list Event) :
  handled (l1 ++ l2) = handled l1 ++ handled l2.
Proof.
  induction l1 as [|[fn arg|p arg] l1 IH]; simpl; auto.
  now rewrite IH.
Qed.

(** Guards are called left to right; their calls are no handler calls, and
    what they answer together is [every], or [some], of their answers. *)
Lemma every_guard_run (patterns : list Guard) (v : Value) (log : list Event)
    (start : nat) :
  exists tests,
    every_guard patterns v log
      = (every_from (fun _ p => guard_test p v) start patterns, log ++ tests)
    /\ handled tests = [].
Proof.
  revert log start; induction patterns as [|p rest IH]; intros log start; simpl.
  - exists []. now rewrite app_nil_r.
  - unfold bind, test.
    destruct (guard_test p v) as [[|]|e]; simpl.
    + destruct (IH (log ++ [Tested (guard_name p) v]) (S start)) as (tests & E & H).
      exists (Tested (guard_name p) v :: tests).
      rewrite E, <- app_assoc. now split.
    + exists [Tested (guard_name p) v]. now split.
    + exists [Tested (guard_name p) v]. now split.
Qed.

Lemma some_guard_run (patterns : list Guard) (v : Value) (log : list Event)
    (start : nat) :
  exists tests,
    some_guard patterns v log
      = (some_from (fun _ p => guard_test p v) start patterns, log ++ tests)
    /\ handled tests = [].
Proof.
  revert log start; induction patterns as [|p rest IH]; intros log start; simpl.
  - exists []. now rewrite app_nil_r.
  - unfold bind, test.
    destruct (guard_test p v) as [[|]|e]; simpl.
    + exists [Tested (guard_name p) v]. now split.
    + destruct (IH (log ++ [Tested (guard_name p) v]) (S start)) as (tests & E & H).
      exists (Tested (guard_name p) v :: tests).
      rewrite E, <- app_assoc. now split.
    + exists [Tested (guard_name p) v]. now split.
Qed.

(** [instanceof] calls no handler, and answers what the predicate of
    [withInstance] is. *)
Lemma instanceof_run (v : Value) (constructor : Constructor) (log : list Event) :
  exists tests,
    instanceof v constructor log
      = (match hasInstance constructor with
         | Some method => guard_test method v
         | None => Ok (OrdinaryHasInstance v (prototype constructor))
         end, log ++ tests)
    /\ handled tests = [].
Proof.
  unfold instanceof. destruct (hasInstance constructor) as [method|].
  - exists [Tested (guard_name method) v]. now split.
  - exists []. now rewrite app_nil_r.
Qed.

(** ** One call *)

Lemma fire_if_run (cond : bool) (fn : Matcher) (this : Match) (log : list Event) :
  fire_if cond fn this log =
    if cond then (Ok (set_matched this), log ++ [Handled fn (value this)])
    else (Ok this, log).
Proof. now destruct cond. Qed.

(** A clause that tests [!this.matched] does nothing on a resolved session:
    its predicate is not evaluated, so no guard is called and no error of
    the matcher is met. *)
Lemma invoke_resolved (c : Call) (this : Match) (log : list Event) :
  checks_matched c = true -> matched this = true ->
  invoke c this log = (Ok this, log).
Proof.
  intros Hc Hm.
  destruct c; try discriminate; simpl;
    unfold with_, withShape, withArray, withAll, withAny, withInstance, bind, ret;
    rewrite Hm; reflexivity.
Qed.

(** On an open session the clause evaluates its predicate and fires on
    [true]; calls of guards are no handler calls. *)
Lemma invoke_open (c : Call) (this : Match) (log : list Event) :
  checks_matched c = true -> matched this = false ->
  match predicate c (value this) with
  | Ok true =>
      exists fn tests,
        handler_of c = Some fn /\ handled tests = [] /\
        invoke c this log
          = (Ok (set_matched this), log ++ tests ++ [Handled fn (value this)])
  | Ok false =>
      exists tests, handled tests = [] /\ invoke c this log = (Ok this, log ++ tests)
  | Throw e =>
      exists tests, handled tests = [] /\ invoke c this log = (Throw e, log ++ tests)
  end.
Proof.
  intros Hc Hm.
  assert (Hrun : forall (fn : Matcher) (r : result bool) (tests : list Event),
            handled tests = [] ->
            match r with
            | Ok true =>
                exists fn' tests',
                  Some fn = Some fn' /\ handled tests' = [] /\
                  bind (fun _ => (r, log ++ tests)) (fun cond => fire_if cond fn this) log
                    = (Ok (set_matched this),
                       log ++ tests' ++ [Handled fn' (value this)])
            | Ok false =>
                exists tests', handled tests' = [] /\
                  bind (fun _ => (r, log ++ tests)) (fun cond => fire_if cond fn this) log
                    = (Ok this, log ++ tests')
            | Throw e =>
                exists tests', handled tests' = [] /\
                  bind (fun _ => (r, log ++ tests)) (fun cond => fire_if cond fn this) log
                    = (Throw e, log ++ tests')
            end).
  { intros fn [[|]|e] tests Ht; unfold bind; simpl.
    - exists fn, tests. unfold call, bind, ret. now rewrite <- app_assoc.
    - exists tests. auto.
    - exists tests. auto. }
  destruct c as [pattern fn|shape fn|pattern fn|patterns fn|patterns fn|ctor fn| |];
    try discriminate; simpl.
  - unfold with_. rewrite fire_if_run, Hm. simpl.
    destruct (strict_equals (value this) pattern).
    + exists fn, []. auto.
    + exists []. now rewrite app_nil_r.
  - pose proof (Hrun fn (isDeepMatch (value this) shape) [] eq_refl) as H.
    unfold withShape. rewrite Hm. simpl. unfold lift.
    rewrite app_nil_r in H. exact H.
  - pose proof (Hrun fn (match value this with
                         | VArr _ elems => isArrayMatch elems pattern
                         | _ => Ok false
                         end) [] eq_refl) as H.
    unfold withArray. rewrite Hm. simpl. rewrite app_nil_r in H.
    destruct (value this); exact H.
  - destruct (every_guard_run patterns (value this) log 0) as (tests & E & Ht).
    pose proof (Hrun fn (every (fun _ p => guard_test p (value this)) patterns)
                  tests Ht) as H.
    unfold withAll. rewrite Hm. simpl.
    unfold bind in *. rewrite E. exact H.
  - destruct (some_guard_run patterns (value this) log 0) as (tests & E & Ht).
    pose proof (Hrun fn (some (fun _ p => guard_test p (value this)) patterns)
                  tests Ht) as H.
    unfold withAny. rewrite Hm. simpl.
    unfold bind in *. rewrite E. exact H.
  - destruct (instanceof_run (value this) ctor log) as (tests & E & Ht).
    pose proof (Hrun fn (match hasInstance ctor with
                         | Some method => guard_test method (value this)
                         | None => Ok (OrdinaryHasInstance (value this) (prototype ctor))
                         end) tests Ht) as H.
    unfold withInstance. rewrite Hm. simpl.
    unfold bind in *. rewrite E. exact H.
Qed.

(** ** Chains *)

Lemma chain_app (cs1 cs2 : list Call) (this : Match) (log : list Event) :
  chain (cs1 ++ cs2) this log =
    match chain cs1 this log with
    | (Ok this', log') => chain cs2 this' log'
    | (Throw e, log') => (Throw e, log')
    end.
Proof.
  revert this log; induction cs1 as [|c cs1 IH]; intros this log; simpl.
  - reflexivity.
  - unfold bind at 1 2. destruct (invoke c this log) as [[this'|e] log']; auto.
Qed.

Lemma chain_resolved (cs : list Call) (this : Match) (log : list Event) :
  Forall tests_matched cs -> matched this = true ->
  chain cs this log = (Ok this, log).
Proof.
  intros Hcs Hm; induction Hcs as [|c cs Hc _ IH]; simpl.
  - reflexivity.
  - unfold bind. now rewrite invoke_resolved.
Qed.

(** Clauses whose predicates answer [false] leave an open session open and
    call no handler. *)
Lemma chain_unmet (pre : list Call) (this : Match) (log : list Event) :
  Forall tests_matched pre -> matched this = false ->
  Forall (unmet (value this)) pre ->
  exists tests, handled tests = [] /\ chain pre this log = (Ok this, log ++ tests).
Proof.
  intros Hcs Hm Hpre; revert log.
  induction Hcs as [|c cs Hc _ IH]; intros log; simpl.
  - exists []. now rewrite app_nil_r.
  - inversion Hpre as [|? ? Hf Hrest]; subst.
    pose proof (invoke_open c this log Hc Hm) as Hi. rewrite Hf in Hi.
    destruct Hi as (tests & Ht & Ei).
    destruct (IH Hrest (log ++ tests)) as (tests' & Ht' & Ec).
    exists (tests ++ tests'). unfold bind. rewrite Ei, Ec, app_assoc.
    split; auto. now rewrite handled_app, Ht, Ht'.
Qed.

(** The first clause whose predicate answers [true] fires, and the rest of
    the chain finds the session resolved. *)
Lemma chain_first_met (pre : list Call) (c : Call) (post : list Call)
    (this : Match) (log : list Event) :
  Forall tests_matched (pre ++ c :: post) -> matched this = false ->
  Forall (unmet (value this)) pre -> predicate c (value this) = Ok true ->
  exists fn events,
    handler_of c = Some fn /\ handled events = [(fn, value this)] /\
    chain (pre ++ c :: post) this log = (Ok (set_matched this), log ++ events).
Proof.
  intros Hcs Hm Hpre Hc.
  apply Forall_app in Hcs as [Hcs1 Hcs2].
  inversion Hcs2 as [|? ? Hcc Hpost]; subst.
  destruct (chain_unmet pre this log Hcs1 Hm Hpre) as (tests & Ht & E1).
  pose proof (invoke_open c this (log ++ tests) Hcc Hm) as Hi. rewrite Hc in Hi.
  destruct Hi as (fn & tests' & Hfn & Ht' & Ei).
  exists fn, (tests ++ tests' ++ [Handled fn (value this)]).
  split; [assumption|]. split.
  - now rewrite !handled_app, Ht, Ht'.
  - rewrite chain_app, E1. simpl. unfold bind. rewrite Ei.
    rewrite chain_resolved by auto. now rewrite <- app_assoc.
Qed.

(** What a chain of such clauses logs on an open session: no handler call,
    or the one call of the first clause whose predicate answered [true]. *)
Lemma chain_open (cs : list Call) (this : Match) (log : list Event) :
  Forall tests_matched cs -> matched this = false ->
  exists events,
    snd (chain cs this log) = log ++ events /\
    (handled events = [] \/
     exists pre c post fn,
       cs = pre ++ c :: post /\ handler_of c = Some fn /\
       predicate c (value this) = Ok true /\
       Forall (unmet (value this)) pre /\
       handled events = [(fn, value this)]).
Proof.
  intros Hcs Hm; revert log.
  induction Hcs as [|c cs Hc Hcs IH]; intros log; simpl.
  - exists []. rewrite app_nil_r. auto.
  - pose proof (invoke_open c this log Hc Hm) as Hi. unfold bind.
    destruct (predicate c (value this)) as [[|]|e] eqn:Hp.
    + destruct Hi as (fn & tests & Hfn & Ht & Ei). rewrite Ei.
      rewrite chain_resolved by auto. simpl.
      exists (tests ++ [Handled fn (value this)]). split; auto.
      right. exists [], c, cs, fn. repeat split; auto.
      now rewrite handled_app, Ht.
    + destruct Hi as (tests & Ht & Ei). rewrite Ei.
      destruct (IH (log ++ tests)) as (events & E & Hev).
      exists (tests ++ events). rewrite E, app_assoc. split; auto.
      rewrite handled_app, Ht. simpl.
      destruct Hev as [Hnone|(pre & c' & post & fn & -> & Hfn & Hp' & Hpre & Hh)].
      * now left.
      * right. exists (c :: pre), c', post, fn. repeat split; auto.
    + destruct Hi as (tests & Ht & Ei). rewrite Ei. simpl.
      exists tests. auto.
Qed.

(** ** Frame: what a call can change *)

Lemma set_matched_resolved (this : Match) :
  matched this = true -> set_matched this = this.
Proof. destruct this as [v m x]; simpl; intros ->; reflexivity. Qed.

(** Every call returns the receiver as it was, or with [matched] set, or with
    [exhaustiveCheck] cleared; its log extends the log it started from. *)
Lemma invoke_returns (c : Call) (this this' : Match) (log log' : list Event) :
  invoke c this log = (Ok this', log') ->
  (this' = this \/ this' = set_matched this \/ this' = clear_exhaustiveCheck this)
  /\ exists events, log' = log ++ events.
Proof.
  intros E.
  destruct (checks_matched c) eqn:Hc.
  - destruct (matched this) eqn:Hm.
    + rewrite invoke_resolved in E by assumption. inversion E; subst.
      split; auto. exists []. now rewrite app_nil_r.
    + pose proof (invoke_open c this log Hc Hm) as Hi.
      destruct (predicate c (value this)) as [[|]|e].
      * destruct Hi as (fn & tests & _ & _ & Ei). rewrite Ei in E.
        inversion E; subst. split; eauto.
      * destruct Hi as (tests & _ & Ei). rewrite Ei in E.
        inversion E; subst. split; eauto.
      * destruct Hi as (tests & _ & Ei). rewrite Ei in E. discriminate.
  - destruct c; try discriminate; simpl in E.
    + unfold withRange in E. rewrite fire_if_run in E.
      destruct (in_range (value this) start end_); inversion E; subst;
        split; eauto.
      exists []. now rewrite app_nil_r.
    + inversion E; subst. split; auto. exists []. now rewrite app_nil_r.
Qed.

Lemma invoke_frame (c : Call) (this this' : Match) (log log' : list Event) :
  invoke c this log = (Ok this', log') ->
  value this' = value this /\
  (matched this = true -> matched this' = true) /\
  (exhaustiveCheck this = false -> exhaustiveCheck this' = false).
Proof.
  intros E. apply invoke_returns in E as [[-> | [-> | ->]] _]; simpl; auto.
Qed.

Lemma chain_frame (cs : list Call) (this this' : Match) (log log' : list Event) :
  chain cs this log = (Ok this', log') ->
  value this' = value this /\
  (matched this = true -> matched this' = true) /\
  (exhaustiveCheck this = false -> exhaustiveCheck this' = false).
Proof.
  revert this log; induction cs as [|c cs IH]; intros this log E; simpl in E.
  - inversion E; subst. auto.
  - unfold bind in E.
    destruct (invoke c this log) as [[this1|e] log1] eqn:E1; [|discriminate].
    apply invoke_frame in E1 as (Hv & Hm & Hx).
    apply IH in E as (Hv' & Hm' & Hx').
    rewrite Hv', Hv. auto.
Qed.

(** ** Range clauses and resolved sessions *)

Lemma withRange_run (start end_ : float) (fn : Matcher) (this : Match)
    (log : list Event) :
  withRange start end_ fn this log =
    if in_range (value this) start end_
    then (Ok (set_matched this), log ++ [Handled fn (value this)])
    else (Ok this, log).
Proof. unfold withRange. apply fire_if_run. Qed.

Lemma in_range_iff (v : Value) (start end_ : float) :
  in_range v start end_ = true <->
  exists n, v = VNum n /\ PrimFloat.leb start n = true /\ PrimFloat.leb n end_ = true.
Proof.
  unfold in_range. split.
  - intros H. destruct v; simpl in H; try discriminate.
    apply andb_prop in H as [H1 H2]. eauto.
  - intros (n & -> & H1 & H2). simpl. now rewrite H1, H2.
Qed.

(** On a resolved session only range clauses call handlers, and the session
    stays resolved. *)
Lemma chain_after_resolved (cs : list Call) (this : Match) (log : list Event) :
  matched this = true ->
  exists this' events,
    chain cs this log = (Ok this', log ++ events) /\
    matched this' = true /\ value this' = value this /\
    handled events = range_firings cs (value this).
Proof.
  revert this log; induction cs as [|c cs IH]; intros this log Hm; simpl.
  - exists this, []. rewrite app_nil_r. auto.
  - unfold bind.
    destruct (checks_matched c) eqn:Hc.
    + rewrite invoke_resolved by assumption.
      destruct (IH this log Hm) as (this' & events & E & Hm' & Hv & Hh).
      exists this', events. repeat split; auto.
      destruct c; try discriminate; auto.
    + destruct c; try discriminate; simpl.
      * rewrite withRange_run.
        destruct (in_range (value this) start end_).
        -- destruct (IH (set_matched this) (log ++ [Handled fn (value this)]))
             as (this' & events & E & Hm' & Hv & Hh); auto.
           exists this', (Handled fn (value this) :: events).
           rewrite E, <- app_assoc. simpl in *. now rewrite Hh.
        -- apply IH; auto.
      * destruct (IH (clear_exhaustiveCheck this) log)
          as (this' & events & E & Hm' & Hv & Hh); auto.
        exists this', events. auto.
Qed.

(** A chain of range clauses calls the handler of each clause whose bounds
    hold the subject, resolved session or not. *)
Lemma chain_ranges (cs : list Call) (this : Match) (log : list Event) :
  Forall (fun c => is_range c = true) cs ->
  exists this' events,
    chain cs this log = (Ok this', log ++ events) /\
    handled events = range_firings cs (value this).
Proof.
  intros Hcs; revert this log.
  induction Hcs as [|c cs Hc _ IH]; intros this log; simpl.
  - exists this, []. rewrite app_nil_r. auto.
  - destruct c; try discriminate. simpl. unfold bind. rewrite withRange_run.
    destruct (in_range (value this) start end_).
    + destruct (IH (set_matched this) (log ++ [Handled fn (value this)]))
        as (this' & events & E & Hh).
      exists this', (Handled fn (value this) :: events).
      rewrite E, <- app_assoc. simpl in *. now rewrite Hh.
    + apply IH.
Qed.

(** ** The terminal call *)

Lemma otherwise_run (fn : Matcher) (this : Match) (log : list Event) :
  otherwise fn this log =
    (if exhaustiveCheck this && negb (matched this)
     then Throw NonExhaustive else Ok tt,
     if matched this then log else log ++ [Handled fn (value this)]).
Proof.
  unfold otherwise, bind, call, ret, throw.
  destruct (matched this), (exhaustiveCheck this); reflexivity.
Qed.

(** ** The matcher, equation by equation *)

Section Every_facts.
Context {A : Type}.

Lemma every_from_true (f : nat -> A -> result bool) (l : list A) (start : nat) :
  every_from f start l = Ok true <->
  forall i x, nth_error l i = Some x -> f (start + i) x = Ok true.
Proof.
  revert start; induction l as [|a l IH]; intros start; simpl.
  - split; auto. intros _ [|i] x; discriminate.
  - split.
    + intros H [|i] x Hx; simpl in Hx.
      * inversion Hx; subst. rewrite Nat.add_0_r.
        destruct (f start x) as [[|]|e]; auto; discriminate.
      * destruct (f start a) as [[|]|e]; try discriminate.
        rewrite <- Nat.add_succ_comm. now apply IH.
    + intros H. rewrite <- (Nat.add_0_r start) at 1. rewrite (H 0 a eq_refl).
      apply IH. intros i x Hx. rewrite Nat.add_succ_comm. now apply H.
Qed.

Lemma every_from_ext (f g : nat -> A -> result bool) (l : list A) (start : nat) :
  (forall i x, nth_error l i = Some x -> f (start + i) x = g (start + i) x) ->
  every_from f start l = every_from g start l.
Proof.
  revert start; induction l as [|a l IH]; intros start H; simpl; auto.
  pose proof (H 0 a eq_refl) as H0. rewrite Nat.add_0_r in H0. rewrite H0.
  destruct (g start a) as [[|]|e]; auto.
  apply IH. intros i x Hx. rewrite Nat.add_succ_comm. now apply H.
Qed.

Lemma every_true_Forall (g : A -> result bool) (l : list A) (start : nat) :
  every_from (fun _ x => g x) start l = Ok true <->
  Forall (fun x => g x = Ok true) l.
Proof.
  rewrite every_from_true. rewrite Forall_forall. split.
  - intros H x Hx. apply In_nth_error in Hx as [i Hi]. eauto.
  - intros H i x Hx. apply H. eapply nth_error_In; eauto.
Qed.
End Every_facts.

Lemma every_index_entries (f : string -> Value -> result bool)
    (elems : list Value) (start start' : nat) :
  every_from (fun _ kv => f (fst kv) (snd kv)) start' (index_entries start elems)
  = every_from (fun i val => f (key_of_index i) val) start elems.
Proof.
  revert start start'; induction elems as [|v elems IH]; intros start start'; simpl.
  - reflexivity.
  - destruct (f (key_of_index start) v) as [[|]|e]; auto.
Qed.

(** [Object.entries(pattern).every(...)] is [every] over [entries]. *)
Lemma entries_every_entries (f : string -> Value -> result bool) (pattern : Value) :
  is_object pattern = true ->
  entries_every f pattern = every (fun _ kv => f (fst kv) (snd kv)) (entries pattern).
Proof.
  destruct pattern; try discriminate; intros _; simpl; unfold every.
  - now rewrite every_index_entries.
  - reflexivity.
Qed.

(** No array index has the key ["elements"]. *)
Lemma index_of_key_elements (n : nat) : index_of_key "elements" n = None.
Proof.
  unfold index_of_key.
  destruct (find _ (seq 0 n)) as [i|] eqn:E; [|reflexivity].
  apply find_some in E as [_ E]. apply String.eqb_eq in E.
  unfold key_of_index in E. destruct (Nat.to_uint i); discriminate.
Qed.

Section Get_facts.
Context {R : Type} (k : PatternKey) (cont : Value -> result R).

Lemma with_lookup_Get (absent : result R) (props : list (string * Value)) :
  with_lookup k cont absent props
    = match lookup (key_name k) props with Some v => cont v | None => absent end.
Proof.
  induction props as [|[k' v] props IH]; simpl; auto.
  destruct (String.eqb (key_name k) k'); auto.
Qed.

(** Reading a property and going on is [Get], then the continuation. *)
Lemma with_property_Get (pattern : Value) :
  with_property k cont pattern = rbind (Get pattern (key_name k)) cont.
Proof.
  destruct pattern as [| | | |s|r elems|r [chain inherited] props]; simpl; auto.
  - destruct k; simpl; auto. now rewrite index_of_key_elements.
  - destruct k; simpl; auto.
    unfold get_property, property. cbn [key_name String.eqb Ascii.eqb Bool.eqb].
    now rewrite index_of_key_elements.
  - rewrite !with_lookup_Get. unfold get_property, property. simpl.
    destruct (lookup (key_name k) props); auto.
    destruct (lookup (key_name k) inherited); auto.
Qed.
End Get_facts.

Lemma Get_VObj (r : Ref) (protos : Inherited Value) (props : list (string * Value))
    (k : string) :
  Get (VObj r protos props) k
    = Ok (match lookup k props with
          | Some v => v
          | None => match lookup k (hidden protos) with
                    | Some v => v
                    | None => VUndefined
                    end
          end).
Proof.
  unfold Get, get_property, property. now destruct (lookup k props).
Qed.

Lemma Get_VArr_length (r : Ref) (elems : list Value) :
  Get (VArr r elems) "length" = Ok (VNum (number_of_nat (List.length elems))).
Proof. reflexivity. Qed.

Lemma Get_VArr_elements (r : Ref) (elems : list Value) :
  Get (VArr r elems) "elements" = Ok VUndefined.
Proof.
  unfold Get, get_property, property. cbn [String.eqb Ascii.eqb Bool.eqb].
  now rewrite index_of_key_elements.
Qed.

(** The body of [isDeepMatch], as the source has it. *)
Lemma isDeepMatch_eq (value pattern : Value) :
  isDeepMatch value pattern =
    if negb (String.eqb (typeof value) "object") || strict_equals value VNull then
      Ok (strict_equals value pattern)
    else if isArray value && isArrayPattern pattern then
      match value with
      | VArr _ elems => isArrayMatch elems pattern
      | _ => Ok false
      end
    else if String.eqb (typeof pattern) "object" && negb (strict_equals pattern VNull) then
      entries_every (fun key val =>
        if negb (has_property key value) then Ok false
        else isDeepMatch (get_property value key) val) pattern
    else Ok false.
Proof. destruct pattern; reflexivity. Qed.

(** The body of [isArrayMatch], as the source has it. *)
Lemma isArrayMatch_eq (value : list Value) (pattern : Value) :
  isArrayMatch value pattern =
    rbind (Get pattern "length") (fun len =>
      if negb (strict_equals len VUndefined) &&
         negb (strict_equals (VNum (number_of_nat (List.length value))) len)
      then Ok false
      else
        rbind (Get pattern "elements") (fun elements =>
          if truthy elements then
            match elements with
            | VArr _ elems =>
                if Nat.ltb (List.length value) (List.length elems) then Ok false
                else every (fun i elem => isDeepMatch (nth i value VUndefined) elem) elems
            | _ =>
                rbind (Get elements "length") (fun n =>
                rbind (length_less_than (List.length value) n) (fun shorter =>
                  if shorter then Ok false else Throw TypeError))
            end
          else Ok true)).
Proof.
  unfold isArrayMatch, isArrayMatch_body.
  rewrite with_property_Get. cbn [key_name].
  destruct (Get pattern "length") as [len|e]; simpl; auto.
  destruct (negb (strict_equals len VUndefined) && _); auto.
  apply with_property_Get.
Qed.

(** On an object that is not sent to [isArrayMatch], an object pattern is
    met entry by entry. *)
Lemma isDeepMatch_object (value pattern : Value) :
  is_object value = true -> is_object pattern = true ->
  isArray value && isArrayPattern pattern = false ->
  isDeepMatch value pattern = Ok true <-> Forall (entry_met value) (entries pattern).
Proof.
  intros Hv Hp Ha. rewrite isDeepMatch_eq.
  unfold is_object in Hv, Hp. apply andb_prop in Hv as [Hv1 Hv2].
  rewrite Hv1. apply negb_true_iff in Hv2. rewrite Hv2, Ha, Hp. simpl.
  rewrite entries_every_entries by exact Hp.
  unfold every. rewrite every_true_Forall.
  assert (Hentry : forall kv : string * Value,
            (if negb (has_property (fst kv) value) then Ok false
             else isDeepMatch (get_property value (fst kv)) (snd kv)) = Ok true
            <-> entry_met value kv).
  { intros [key val]; unfold entry_met; simpl.
    destruct (has_property key value); simpl.
    - intuition.
    - intuition discriminate. }
  split; intros H; eapply Forall_impl; try exact H; intros kv; apply Hentry.
Qed.

Lemma undefined_or_not (v : Value) :
  strict_equals v VUndefined = true <-> v = VUndefined.
Proof. destruct v; simpl; split; congruence. Qed.

Lemma lookup_app (k : string) (props extra : list (string * Value)) (v : Value) :
  lookup k props = Some v -> lookup k (props ++ extra) = Some v.
Proof.
  induction props as [|[k' v'] props IH]; simpl; [discriminate|].
  destruct (String.eqb k k'); auto.
Qed.

(** ** Claims about the session *)

(** C1.  A chain of calls of [with], [withShape], [withArray], [withAll],
    [withAny] and [withInstance], on any session: the handler calls it adds
    to the log are at most one; a handler that is called is called on the
    subject, the session was open, and it is the handler of the first clause
    of the chain whose predicate answers [true] on the subject, every clause
    before it answering [false]; and the first such clause of a chain on an
    open session does have its handler called.  Each of these calls, on a
    resolved session, returns it untouched without evaluating its predicate
    (nothing is logged, nothing thrown), and a call that fires returns the
    session with [matched] set. *)
Theorem first_match_wins (cs : list Call) (this : Match) (log : list Event) :
  Forall tests_matched cs ->
  (exists events,
     snd (chain cs this log) = log ++ events /\
     List.length (handled events) <= 1 /\
     (forall fn arg, In (fn, arg) (handled events) ->
        matched this = false /\ arg = value this /\
        exists pre c post,
          cs = pre ++ c :: post /\ handler_of c = Some fn /\
          predicate c (value this) = Ok true /\
          Forall (unmet (value this)) pre) /\
     (forall pre c post,
        matched this = false -> cs = pre ++ c :: post ->
        Forall (unmet (value this)) pre -> predicate c (value this) = Ok true ->
        exists fn, handler_of c = Some fn /\ handled events = [(fn, value this)]))
  /\
  Forall (fun c => forall (session : Match) (before : list Event),
     (matched session = true -> invoke c session before = (Ok session, before)) /\
     (fires c session = Ok true ->
        exists fn tests,
          handler_of c = Some fn /\ handled tests = [] /\
          matched (set_matched session) = true /\
          invoke c session before
            = (Ok (set_matched session),
               before ++ tests ++ [Handled fn (value session)]))) cs.
Proof.
  intros Hcs. split.
  - destruct (matched this) eqn:Hm.
    + exists []. rewrite chain_resolved by assumption. simpl.
      rewrite app_nil_r. split; [reflexivity|]. split; [auto|]. split.
      * intros fn arg [].
      * intros; discriminate.
    + destruct (chain_open cs this log Hcs Hm) as (events & E & Hev).
      exists events. split; [exact E|].
      split; [|split].
      * destruct Hev as [->|(pre & c & post & fn & _ & _ & _ & _ & ->)]; simpl; lia.
      * intros fn arg Hin.
        destruct Hev as [Hnone|(pre & c & post & fn' & Hcs' & Hfn & Hp & Hpre & Hh)].
        -- rewrite Hnone in Hin. destruct Hin.
        -- rewrite Hh in Hin. destruct Hin as [Heq|[]]. inversion Heq; subst.
           repeat split; auto. exists pre, c, post. auto.
      * intros pre c post _ Hcs' Hpre Hp. subst cs.
        destruct (chain_first_met pre c post this log Hcs Hm Hpre Hp)
          as (fn & events' & Hfn & Hh & Ec).
        rewrite Ec in E. simpl in E. apply app_inv_head in E. subst events'.
        eauto.
  - eapply Forall_impl; [|exact Hcs]. intros c Hc session before. split.
    + intros Hm. now apply invoke_resolved.
    + unfold fires. rewrite Hc. simpl.
      destruct (matched session) eqn:Hm; [discriminate|].
      intros Hp. pose proof (invoke_open c session before Hc Hm) as Hi.
      rewrite Hp in Hi. destruct Hi as (fn & tests & Hfn & Ht & Ei).
      exists fn, tests. auto.
Qed.

(** The chain [with(1, h1).with(5, h2).withAll([], h3)] on the subject 5
    calls [h2] and nothing else. *)
Lemma first_match_wins_witness :
  let cs := [Call_with (num 1) 1; Call_with (num 5) 2; Call_withAll [] 3] in
  Forall tests_matched cs /\
  exists events,
    snd (chain cs (match_ (num 5)) []) = [] ++ events /\
    handled events = [(2, num 5)].
Proof.
  assert (Hcs : Forall tests_matched
                  [Call_with (num 1) 1; Call_with (num 5) 2; Call_withAll [] 3])
    by (repeat constructor).
  split; [exact Hcs|].
  destruct (first_match_wins _ (match_ (num 5)) [] Hcs)
    as [(events & E & _ & _ & Hfirst) _].
  exists events. split; [exact E|].
  destruct (Hfirst [Call_with (num 1) 1] (Call_with (num 5) 2) [Call_withAll [] 3])
    as (fn & Hfn & Hh); try reflexivity.
  - repeat constructor.
  - inversion Hfn; subst. exact Hh.
Defined.

(** C2.  [withRange] calls its handler iff the subject is a number [n] with
    [start <= n <= end], both bounds included, and it does so whatever
    [this.matched] is: [match(5).with(5, h1).withRange(1, 10, h2)
    .otherwise(h3)] calls [h1] and then [h2]; in a chain of range clauses
    every clause whose bounds hold the subject has its handler called; and
    with the bounds 1 and 3 the subjects 1, 2 and 3 are in range, 0 and 4
    are not. *)
Theorem withRange_ignores_matched :
  (forall start end_ fn this log,
     withRange start end_ fn this log =
       if in_range (value this) start end_
       then (Ok (set_matched this), log ++ [Handled fn (value this)])
       else (Ok this, log)) /\
  (forall v start end_,
     in_range v start end_ = true <->
     exists n, v = VNum n /\
               PrimFloat.leb start n = true /\ PrimFloat.leb n end_ = true) /\
  run (num 5) [Call_with (num 5) 1; Call_withRange 1 10 2] 3 []
    = (Ok tt, [Handled 1 (num 5); Handled 2 (num 5)]) /\
  (forall cs this log,
     Forall (fun c => is_range c = true) cs ->
     exists this' events,
       chain cs this log = (Ok this', log ++ events) /\
       handled events = range_firings cs (value this)) /\
  range_firings [Call_withRange 1 10 1; Call_withRange 3 7 2; Call_withRange 6 9 3]
                (num 5) = [(1, num 5); (2, num 5)] /\
  map (fun z => in_range (num z) 1 3) [0; 1; 2; 3; 4]%Z
    = [false; true; true; true; false].
Proof.
  split; [exact withRange_run|].
  split; [exact in_range_iff|].
  split; [reflexivity|].
  split; [exact chain_ranges|].
  split; reflexivity.
Qed.

(** Three range clauses on the subject 5, the first two holding it: both
    handlers are called. *)
Lemma withRange_ignores_matched_witness :
  let cs := [Call_withRange 1 10 1; Call_withRange 3 7 2; Call_withRange 6 9 3] in
  Forall (fun c => is_range c = true) cs /\
  exists this' events,
    chain cs (match_ (num 5)) [] = (Ok this', [] ++ events) /\
    handled events = range_firings cs (num 5).
Proof.
  assert (Hcs : Forall (fun c => is_range c = true)
            [Call_withRange 1 10 1; Call_withRange 3 7 2; Call_withRange 6 9 3])
    by (repeat constructor).
  split; [exact Hcs|].
  exact (proj1 (proj2 (proj2 (proj2 withRange_ignores_matched)))
           _ (match_ (num 5)) [] Hcs).
Defined.

(** C3.  [otherwise] calls the fallback handler on the subject iff the
    session is not resolved, and calling it leaves [matched] as it was; so on
    a session that no clause resolved and whose [exhaustiveCheck] is still
    set, the fallback is called and then the error is thrown, as in
    [match(7).with(1, h).otherwise(fallback)]. *)
Theorem otherwise_calls_then_throws :
  (forall fn this log,
     otherwise fn this log =
       (if exhaustiveCheck this && negb (matched this)
        then Throw NonExhaustive else Ok tt,
        if matched this then log else log ++ [Handled fn (value this)])) /\
  (forall fn this log,
     matched this = false -> exhaustiveCheck this = true ->
     otherwise fn this log = (Throw NonExhaustive, log ++ [Handled fn (value this)])) /\
  run (num 7) [Call_with (num 1) 1] 2 [] = (Throw NonExhaustive, [Handled 2 (num 7)]).
Proof.
  split; [exact otherwise_run|]. split; [|reflexivity].
  intros fn this log Hm Hx. now rewrite otherwise_run, Hm, Hx.
Qed.

(** The open, exhaustive session [match(7)]. *)
Lemma otherwise_calls_then_throws_witness :
  matched (match_ (num 7)) = false /\ exhaustiveCheck (match_ (num 7)) = true /\
  otherwise 2 (match_ (num 7)) [] = (Throw NonExhaustive, [] ++ [Handled 2 (num 7)]).
Proof.
  split; [reflexivity|]. split; [reflexivity|].
  exact (proj1 (proj2 otherwise_calls_then_throws) 2 (match_ (num 7)) []
           eq_refl eq_refl).
Defined.

(** C6.  Once [nonExhaustive] was called in a chain, [otherwise] throws no
    error, whatever the other calls of the chain are and whether or not a
    clause matched; it still calls the fallback handler on an unresolved
    session. *)
Theorem nonExhaustive_disables_error (cs1 cs2 : list Call) (this this' : Match)
    (fallback : Matcher) (log log' : list Event) :
  chain (cs1 ++ Call_nonExhaustive :: cs2) this log = (Ok this', log') ->
  otherwise fallback this' log'
    = (Ok tt, if matched this' then log' else log' ++ [Handled fallback (value this)]).
Proof.
  intros E. rewrite chain_app in E.
  destruct (chain cs1 this log) as [[this1|e] log1] eqn:E1; [|discriminate].
  simpl in E. unfold bind, nonExhaustive, ret in E.
  apply chain_frame in E as (Hv & _ & Hx). apply chain_frame in E1 as (Hv1 & _).
  rewrite otherwise_run, (Hx eq_refl), Hv, <- Hv1. reflexivity.
Qed.

(** [match(7).nonExhaustive().with(1, h).otherwise(fallback)] calls the
    fallback and returns. *)
Lemma nonExhaustive_disables_error_witness :
  let this' := clear_exhaustiveCheck (match_ (num 7)) in
  chain ([] ++ Call_nonExhaustive :: [Call_with (num 1) 1]) (match_ (num 7)) []
    = (Ok this', []) /\
  otherwise 2 this' [] = (Ok tt, [Handled 2 (num 7)]) /\
  run (num 7) [Call_nonExhaustive; Call_with (num 1) 1] 2 []
    = (Ok tt, [Handled 2 (num 7)]).
Proof.
  split; [reflexivity|]. split; [|reflexivity].
  exact (nonExhaustive_disables_error [] [Call_with (num 1) 1] (match_ (num 7))
           (clear_exhaustiveCheck (match_ (num 7))) 2 [] [] eq_refl).
Defined.

Lemma range_firings_In (cs : list Call) (v : Value) (fn : Matcher) (arg : Value) :
  In (fn, arg) (range_firings cs v) ->
  arg = v /\
  exists start end_, In (Call_withRange start end_ fn) cs /\ in_range v start end_ = true.
Proof.
  induction cs as [|c cs IH]; simpl; [intros []|].
  assert (Hrest : In (fn, arg) (range_firings cs v) ->
            arg = v /\ exists start end_,
              (c = Call_withRange start end_ fn \/ In (Call_withRange start end_ fn) cs)
              /\ in_range v start end_ = true).
  { intros H. destruct (IH H) as (-> & s & e & Hin & Hr). eauto 6. }
  destruct c; auto.
  destruct (in_range v start end_) eqn:Hr; auto.
  intros [Heq|H]; auto. inversion Heq; subst. eauto 6.
Qed.

(** C7.  A range clause that fires leaves the session resolved, resolved
    before or not.  Whatever calls follow, they all return, the only handlers
    they call are those of range clauses whose bounds hold the subject, and
    [otherwise] then neither calls the fallback handler nor throws. *)
Theorem withRange_resolves (start end_ : float) (fn : Matcher) (this : Match)
    (log : list Event) :
  in_range (value this) start end_ = true ->
  exists this1 log1,
    withRange start end_ fn this log = (Ok this1, log1) /\
    matched this1 = true /\
    forall (cs : list Call) (fallback : Matcher),
    exists this2 events,
      chain cs this1 log1 = (Ok this2, log1 ++ events) /\
      handled events = range_firings cs (value this) /\
      (forall fn' arg, In (fn', arg) (handled events) ->
         exists start' end', In (Call_withRange start' end' fn') cs) /\
      otherwise fallback this2 (log1 ++ events) = (Ok tt, log1 ++ events).
Proof.
  intros Hr. rewrite withRange_run, Hr.
  exists (set_matched this), (log ++ [Handled fn (value this)]).
  split; [reflexivity|]. split; [reflexivity|].
  intros cs fallback.
  destruct (chain_after_resolved cs (set_matched this)
              (log ++ [Handled fn (value this)]) eq_refl)
    as (this2 & events & E & Hm & _ & Hh).
  exists this2, events. simpl in Hh. repeat split; auto.
  - intros fn' arg Hin. rewrite Hh in Hin.
    apply range_firings_In in Hin as (_ & s & e & Hin & _). eauto.
  - rewrite otherwise_run, Hm. now destruct (exhaustiveCheck this2).
Qed.

(** [match(5).withRange(1, 10, h)]: the clause fires. *)
Lemma withRange_resolves_witness :
  in_range (value (match_ (num 5))) 1 10 = true /\
  exists this1 log1,
    withRange 1 10 1 (match_ (num 5)) [] = (Ok this1, log1) /\
    matched this1 = true.
Proof.
  split; [reflexivity|].
  destruct (withRange_resolves 1 10 1 (match_ (num 5)) [] eq_refl)
    as (this1 & log1 & E & Hm & _).
  exists this1, log1. split; assumption.
Defined.

(** C8.  [withAll] with no predicate fires on every session that is not
    resolved; [withAny] with no predicate never fires. *)
Theorem empty_withAll_withAny (fn : Matcher) (this : Match) (log : list Event) :
  withAll [] fn this log =
    (if matched this then (Ok this, log)
     else (Ok (set_matched this), log ++ [Handled fn (value this)])) /\
  withAny [] fn this log = (Ok this, log).
Proof.
  unfold withAll, withAny, bind, ret. simpl.
  destruct (matched this); simpl; auto.
Qed.

(** IEEE equality: a NaN equals nothing. *)
Lemma nan_eqb (x y : float) : PrimFloat.is_nan x = true -> PrimFloat.eqb x y = false.
Proof.
  intros H. rewrite FloatAxioms.eqb_spec. unfold FloatOps.Prim2SF at 1.
  now rewrite H.
Qed.

(** C9.  On a subject that is NaN, [with(NaN, h)] does not fire: the session
    and the log are as before. *)
Theorem with_NaN_never_fires (x y : float) (fn : Matcher) (this : Match)
    (log : list Event) :
  value this = VNum x -> PrimFloat.is_nan x = true -> PrimFloat.is_nan y = true ->
  with_ (VNum y) fn this log = (Ok this, log).
Proof.
  intros Hv Hx _. unfold with_. rewrite fire_if_run, Hv. simpl.
  rewrite (nan_eqb x y Hx), andb_false_r. reflexivity.
Qed.

Lemma with_NaN_never_fires_witness :
  value (match_ (VNum nan)) = VNum nan /\ PrimFloat.is_nan nan = true /\
  with_ (VNum nan) 1 (match_ (VNum nan)) [] = (Ok (match_ (VNum nan)), []).
Proof.
  split; [reflexivity|]. split; [reflexivity|].
  exact (with_NaN_never_fires nan nan 1 (match_ (VNum nan)) []
           eq_refl eq_refl eq_refl).
Defined.

(** C10.  A clause call that does not fire returns the receiver itself,
    [value], [matched] and [exhaustiveCheck] included, and calls no handler;
    and whatever a call or a chain of calls returns has the subject it
    started with and is resolved if it started resolved. *)
Theorem unfired_call_is_noop (c : Call) (this : Match) (log : list Event) :
  (forall fn, handler_of c = Some fn -> fires c this = Ok false ->
     exists tests, handled tests = [] /\ invoke c this log = (Ok this, log ++ tests)) /\
  (forall this' log', invoke c this log = (Ok this', log') ->
     value this' = value this /\ (matched this = true -> matched this' = true)) /\
  (forall cs this' log', chain cs this log = (Ok this', log') ->
     value this' = value this /\ (matched this = true -> matched this' = true)).
Proof.
  split; [|split].
  - intros fn Hfn. unfold fires.
    destruct (checks_matched c) eqn:Hc; simpl.
    + destruct (matched this) eqn:Hm.
      * intros _. exists []. rewrite app_nil_r. split; auto.
        now apply invoke_resolved.
      * intros Hp. pose proof (invoke_open c this log Hc Hm) as Hi.
        now rewrite Hp in Hi.
    + destruct c; try discriminate; simpl.
      intros Hp. inversion Hp as [Hr]. rewrite withRange_run, Hr.
      exists []. now rewrite app_nil_r.
  - intros this' log' E. apply invoke_frame in E. tauto.
  - intros cs this' log' E. apply chain_frame in E. tauto.
Qed.

(** [with(1, h)] on the subject 7 does not fire. *)
Lemma unfired_call_is_noop_witness :
  handler_of (Call_with (num 1) 1) = Some 1 /\
  fires (Call_with (num 1) 1) (match_ (num 7)) = Ok false /\
  exists tests,
    handled tests = [] /\
    invoke (Call_with (num 1) 1) (match_ (num 7)) []
      = (Ok (match_ (num 7)), [] ++ tests).
Proof.
  split; [reflexivity|]. split; [reflexivity|].
  exact (proj1 (unfired_call_is_noop (Call_with (num 1) 1) (match_ (num 7)) [])
           1 eq_refl eq_refl).
Defined.

(** ** Claims about the matcher *)

Lemma lookup_app_absent (k : string) (props extra : list (string * Value)) :
  lookup k extra = None -> lookup k (props ++ extra) = lookup k props.
Proof.
  intros H. induction props as [|[k' v'] props IH]; simpl; auto.
  destruct (String.eqb k k'); auto.
Qed.

(** A key that the added properties have not is found as before. *)
Lemma entry_met_extra (r : Ref) (protos : Inherited Value)
    (props extra : list (string * Value)) (kv : string * Value) :
  lookup (fst kv) extra = None ->
  entry_met (VObj r protos (props ++ extra)) kv <-> entry_met (VObj r protos props) kv.
Proof.
  intros H. unfold entry_met, has_property, get_property, property.
  now rewrite (lookup_app_absent _ props _ H).
Qed.

(** C4, as the claim has it, fails on an array value whose pattern has an
    [elements] key: [[1, 2]] deep-matches [{elements: [1]}], which
    [isDeepMatch] hands to [isArrayMatch], though the array has no property
    [elements]. *)
Lemma isDeepMatch_entries_counterexample :
  let value := array 1 [num 1; num 2] in
  let pattern := object 2 [("elements", array 3 [num 1])] in
  is_object value = true /\ is_object pattern = true /\
  isDeepMatch value pattern = Ok true /\
  has_property "elements" value = false /\
  ~ (isDeepMatch value pattern = Ok true <-> Forall (entry_met value) (entries pattern)).
Proof.
  repeat (split; [reflexivity|]).
  intros [H _]. specialize (H eq_refl).
  inversion H as [|? ? [Hhas _] _]. discriminate.
Qed.

(** C4, amended.  For a value and a pattern that are both objects (arrays
    included, [null] excluded) and are not an array paired with a pattern
    that has a [length] or an [elements] key, [isDeepMatch] accepts iff every
    entry [(key, subPattern)] of the pattern has its key in the value and
    [value[key]] deep-matches [subPattern].  A pattern without entries
    matches every object and every array (if it inherits neither [length]
    nor [elements], as [{}] does not); properties of the value under keys
    that the pattern has not are ignored: with or without them the answer is
    the same; [{type: "user"}] matches
    [{type: "user", name: "Ann", age: 30}] and [{type: "admin"}] does not.
    A key is in the value as [in] finds it, own or not: [{message: "x"}]
    matches an error with that message, an own [__proto__] entry is matched
    against the prototype of the value, and [{a: 1}] matches an object that
    inherits [a] holding 1 until the object gets an [a] of its own. *)
Theorem isDeepMatch_object_pattern :
  (forall value pattern,
     is_object value = true -> is_object pattern = true ->
     isArray value && isArrayPattern pattern = false ->
     (isDeepMatch value pattern = Ok true <->
      Forall (entry_met value) (entries pattern))) /\
  (forall value r protos,
     is_object value = true -> isArrayPattern (VObj r protos []) = false ->
     isDeepMatch value (VObj r protos []) = Ok true) /\
  (forall value r,
     is_object value = true -> isDeepMatch value (object r []) = Ok true) /\
  (forall r protos props extra pattern,
     is_object pattern = true ->
     Forall (fun kv => lookup (fst kv) extra = None) (entries pattern) ->
     (isDeepMatch (VObj r protos (props ++ extra)) pattern = Ok true <->
      isDeepMatch (VObj r protos props) pattern = Ok true)) /\
  (let ann := object 1 [("type", VStr "user"); ("name", VStr "Ann"); ("age", num 30)] in
   isDeepMatch ann (object 2 [("type", VStr "user")]) = Ok true /\
   isDeepMatch ann (object 3 [("type", VStr "admin")]) = Ok false) /\
  (let error := VObj 4 {| prototypes := [Object_prototype];
                          hidden := [("message", VStr "x");
                                     ("__proto__", Object_prototype_value)] |} [] in
   let parent := object 5 [("a", num 1)] in
   let child own := VObj 6 {| prototypes := [5; Object_prototype];
                              hidden := [("a", num 1); ("__proto__", parent)] |} own in
   isDeepMatch error (object 7 [("message", VStr "x")]) = Ok true /\
   isDeepMatch (object 8 [("a", num 1)]) (object 7 [("__proto__", object 9 [])])
     = Ok true /\
   isDeepMatch (child []) (object 7 [("a", num 1)]) = Ok true /\
   isDeepMatch (child [("a", num 2)]) (object 7 [("a", num 1)]) = Ok false).
Proof.
  split; [exact isDeepMatch_object|]. split; [|split; [|split; [|split]]].
  - intros value r protos Hv Hp.
    apply isDeepMatch_object; auto.
    now rewrite Hp, andb_false_r.
  - intros value r Hv.
    apply isDeepMatch_object; auto.
    apply andb_false_r.
  - intros r protos props extra pattern Hp Hextra.
    rewrite !isDeepMatch_object by auto.
    split; intros H; rewrite Forall_forall in *; intros kv Hin;
      apply (entry_met_extra r protos props extra kv (Hextra kv Hin)); auto.
  - split; reflexivity.
  - repeat split; reflexivity.
Qed.

(** The same array [[1, 2]] against the pattern [{0: 1}], which has
    neither key. *)
Lemma isDeepMatch_object_pattern_witness :
  let value := array 1 [num 1; num 2] in
  let pattern := object 2 [("0", num 1)] in
  is_object value = true /\ is_object pattern = true /\
  isArray value && isArrayPattern pattern = false /\
  (isDeepMatch value pattern = Ok true <-> Forall (entry_met value) (entries pattern)).
Proof.
  repeat (split; [reflexivity|]).
  exact (proj1 isDeepMatch_object_pattern
           (array 1 [num 1; num 2]) (object 2 [("0", num 1)])
           eq_refl eq_refl eq_refl).
Defined.

Lemma every_nth (value elems : list Value) :
  every (fun i elem => isDeepMatch (nth i value VUndefined) elem) elems = Ok true <->
  forall i, i < List.length elems ->
    isDeepMatch (nth i value VUndefined) (nth i elems VUndefined) = Ok true.
Proof.
  unfold every. rewrite every_from_true. simpl. split.
  - intros H i Hi. apply H. now apply nth_error_nth'.
  - intros H i x Hx.
    assert (Hi : i < List.length elems) by (apply nth_error_Some; congruence).
    rewrite <- (nth_error_nth _ _ VUndefined Hx). now apply H.
Qed.

(** C5.  [isArrayMatch], read in the order of its tests, for a pattern whose
    [length] and [elements] can be read.  A [length] that is not [undefined]
    and differs from the length of the value rejects.  With [elements] an
    array: a value shorter than [elements] is rejected; otherwise, the
    [length] test passed, the value is accepted iff [value[i]] deep-matches
    [elements[i]] at every index [i] of [elements], and what the value holds
    beyond them changes nothing.  With neither property the pattern accepts
    every array.  [[1,2,3]] matches [{length: 3, elements: [1,2,3]}] and
    [{length: 3}]; [[1,2,3,4]] does not match [{length: 3}] and matches
    [{elements: [1,2]}]. *)
Theorem isArrayMatch_length_and_prefix :
  (forall (value : list Value) (pattern len elements : Value),
     Get pattern "length" = Ok len -> Get pattern "elements" = Ok elements ->
     (len <> VUndefined ->
      strict_equals (VNum (number_of_nat (List.length value))) len = false ->
      isArrayMatch value pattern = Ok false) /\
     (forall r elems, elements = VArr r elems ->
        (List.length value < List.length elems ->
         isArrayMatch value pattern = Ok false) /\
        (len = VUndefined \/
         strict_equals (VNum (number_of_nat (List.length value))) len = true ->
         List.length elems <= List.length value ->
         (isArrayMatch value pattern = Ok true <->
          forall i, i < List.length elems ->
            isDeepMatch (nth i value VUndefined) (nth i elems VUndefined) = Ok true)) /\
        (len = VUndefined -> List.length elems <= List.length value ->
         forall extra,
           isArrayMatch (value ++ extra) pattern = isArrayMatch value pattern)) /\
     (len = VUndefined -> elements = VUndefined ->
      isArrayMatch value pattern = Ok true)) /\
  (let v123 := [num 1; num 2; num 3] in
   let v1234 := [num 1; num 2; num 3; num 4] in
   isArrayMatch v123 (object 1 [("length", num 3); ("elements", array 2 v123)]) = Ok true /\
   isArrayMatch v123 (object 1 [("length", num 3)]) = Ok true /\
   isArrayMatch v1234 (object 1 [("length", num 3)]) = Ok false /\
   isArrayMatch v1234 (object 1 [("elements", array 2 [num 1; num 2])]) = Ok true).
Proof.
  split; [|repeat split; reflexivity].
  intros value pattern len elements Hlen Helems.
  split; [|split].
  - intros Hdef Hne. rewrite isArrayMatch_eq, Hlen. cbn [rbind]. rewrite Hne.
    destruct (strict_equals len VUndefined) eqn:Hu; auto.
    apply undefined_or_not in Hu. contradiction.
  - intros r elems ->. split; [|split].
    + intros Hshort. rewrite isArrayMatch_eq, Hlen, Helems. cbn [rbind truthy].
      apply Nat.ltb_lt in Hshort. rewrite Hshort.
      now destruct (negb _ && negb _).
    + intros Hpass Hlong. rewrite isArrayMatch_eq, Hlen, Helems. cbn [rbind truthy].
      assert (Hfirst : negb (strict_equals len VUndefined) &&
                negb (strict_equals (VNum (number_of_nat (List.length value))) len)
              = false).
      { destruct Hpass as [-> | ->]; simpl; auto. apply andb_false_r. }
      rewrite Hfirst. apply Nat.ltb_ge in Hlong. rewrite Hlong.
      apply every_nth.
    + intros -> Hlong extra. rewrite !isArrayMatch_eq, Hlen, Helems. cbn [rbind truthy strict_equals negb andb].
      assert (Hlong' : List.length elems <= List.length (value ++ extra))
        by (rewrite length_app; lia).
      apply Nat.ltb_ge in Hlong'. rewrite Hlong'.
      pose proof Hlong as Hge. apply Nat.ltb_ge in Hge. rewrite Hge.
      apply every_from_ext. intros i x Hx. simpl.
      rewrite app_nth1; auto.
      assert (i < List.length elems) by (apply nth_error_Some; congruence). lia.
  - intros -> ->. now rewrite isArrayMatch_eq, Hlen, Helems.
Qed.

(** The value [[1,2,3]] and the pattern [{length: 3, elements: [1,2]}]. *)
Lemma isArrayMatch_length_and_prefix_witness :
  let value := [num 1; num 2; num 3] in
  let pattern := object 1 [("length", num 3); ("elements", array 2 [num 1; num 2])] in
  Get pattern "length" = Ok (num 3) /\
  Get pattern "elements" = Ok (array 2 [num 1; num 2]) /\
  strict_equals (VNum (number_of_nat (List.length value))) (num 3) = true /\
  List.length [num 1; num 2] <= List.length value /\
  (isArrayMatch value pattern = Ok true <->
   forall i, i < 2 ->
     isDeepMatch (nth i value VUndefined) (nth i [num 1; num 2] VUndefined) = Ok true).
Proof.
  repeat (split; [reflexivity|]).
  split; [simpl; lia|].
  destruct (proj1 isArrayMatch_length_and_prefix
              [num 1; num 2; num 3]
              (object 1 [("length", num 3); ("elements", array 2 [num 1; num 2])])
              (num 3) (array 2 [num 1; num 2]) eq_refl eq_refl)
    as (_ & Helements & _).
  destruct (Helements 2 [num 1; num 2] eq_refl) as (_ & Hiff & _).
  apply Hiff; [right; reflexivity | simpl; lia].
Defined.

(** * Further properties of the class *)

(** ** Handlers and the [matched] flag *)

(** A call that returns either logs no handler call and leaves [matched] as
    it is, or logs one call of its handler on the subject and sets
    [matched]. *)
Lemma invoke_effect (c : Call) (this this' : Match) (log log' : list Event) :
  invoke c this log = (Ok this', log') ->
  (handled log' = handled log /\
   (this' = this \/ (c = Call_nonExhaustive /\ this' = clear_exhaustiveCheck this)))
  \/
  (exists fn, handler_of c = Some fn /\ this' = set_matched this /\
              handled log' = handled log ++ [(fn, value this)]).
Proof.
  intros E.
  destruct (checks_matched c) eqn:Hc.
  - destruct (matched this) eqn:Hm.
    + rewrite invoke_resolved in E by assumption. inversion E; subst. auto.
    + pose proof (invoke_open c this log Hc Hm) as Hi.
      destruct (predicate c (value this)) as [[|]|e].
      * destruct Hi as (fn & tests & Hfn & Ht & Ei). rewrite Ei in E.
        inversion E; subst. right. exists fn.
        rewrite !handled_app, Ht. auto.
      * destruct Hi as (tests & Ht & Ei). rewrite Ei in E.
        inversion E; subst. left. rewrite handled_app, Ht, app_nil_r. auto.
      * destruct Hi as (tests & _ & Ei). rewrite Ei in E. discriminate.
  - destruct c; try discriminate; simpl in E.
    + rewrite withRange_run in E.
      destruct (in_range (value this) start end_); inversion E; subst; auto.
      right. exists fn. rewrite handled_app. auto.
    + inversion E; subst. auto.
Qed.

(** What a chain that returns has logged and set. *)
Lemma chain_handled (cs : list Call) (this this' : Match)
    (log log' : list Event) :
  chain cs this log = (Ok this', log') ->
  exists calls,
    handled log' = handled log ++ calls /\
    (matched this' = true <-> matched this = true \/ calls <> []) /\
    Forall (fun call => snd call = value this) calls.
Proof.
  revert this log; induction cs as [|c cs IH]; intros this log E; simpl in E.
  - inversion E; subst. exists []. rewrite app_nil_r.
    split; [reflexivity|]. split; [|constructor]. tauto.
  - unfold bind in E.
    destruct (invoke c this log) as [[this1|e] log1] eqn:E1; [|discriminate].
    destruct (IH _ _ E) as (calls & Hh & Hm & Hv).
    pose proof (invoke_frame _ _ _ _ _ E1) as (Hval & _).
    rewrite Hval in Hv.
    apply invoke_effect in E1
      as [(Hh1 & Hthis)|(fn & _ & -> & Hh1)].
    + exists calls. rewrite Hh, Hh1. split; [reflexivity|]. split; [|exact Hv].
      rewrite Hm. destruct Hthis as [->|(_ & ->)]; simpl; tauto.
    + exists ((fn, value this) :: calls). rewrite Hh, Hh1, <- app_assoc.
      split; [reflexivity|]. split.
      * rewrite Hm. simpl. split; [right; discriminate|auto].
      * constructor; auto.
Qed.

(** X1.  Along any chain that returns, [matched] is set exactly when it was
    set before or the chain called a handler, and every handler the chain
    called was called on the subject of the session. *)
Theorem matched_iff_handled (cs : list Call) (this this' : Match)
    (log log' : list Event) :
  chain cs this log = (Ok this', log') ->
  exists calls,
    handled log' = handled log ++ calls /\
    (matched this' = true <-> matched this = true \/ calls <> []) /\
    Forall (fun call => snd call = value this) calls.
Proof. apply chain_handled. Qed.

(** [match(5).with(1, h1).withRange(1, 10, h2)]: one handler call, on 5. *)
Lemma matched_iff_handled_witness :
  let cs := [Call_with (num 1) 1; Call_withRange 1 10 2] in
  chain cs (match_ (num 5)) [] = (Ok (set_matched (match_ (num 5))), [Handled 2 (num 5)]) /\
  exists calls,
    handled [Handled 2 (num 5)] = handled [] ++ calls /\
    Forall (fun call => snd call = num 5) calls.
Proof.
  split; [reflexivity|].
  destruct (matched_iff_handled [Call_with (num 1) 1; Call_withRange 1 10 2]
              (match_ (num 5)) (set_matched (match_ (num 5))) []
              [Handled 2 (num 5)] eq_refl) as (calls & Hh & _ & Hv).
  exists calls. split; assumption.
Defined.

(** [exhaustiveCheck] after a chain: set iff it was set and the chain has no
    call of [nonExhaustive]. *)
Lemma chain_exhaustiveCheck (cs : list Call) (this this' : Match)
    (log log' : list Event) :
  chain cs this log = (Ok this', log') ->
  exhaustiveCheck this' = exhaustiveCheck this && negb (existsb is_nonExhaustive cs).
Proof.
  revert this log; induction cs as [|c cs IH]; intros this log E; simpl in E.
  - inversion E; subst. simpl. now rewrite andb_true_r.
  - unfold bind in E.
    destruct (invoke c this log) as [[this1|e] log1] eqn:E1; [|discriminate].
    rewrite (IH _ _ E). simpl.
    destruct (is_nonExhaustive c) eqn:Hn; simpl.
    + destruct c; try discriminate. inversion E1; subst. simpl.
      now rewrite andb_false_r.
    + apply invoke_effect in E1
        as [(_ & [-> | (-> & _)]) | (fn & _ & -> & _)];
        [reflexivity | discriminate | reflexivity].
Qed.

(** X2.  What a whole expression [match(v).c1(...)...cn(...).otherwise(fb)]
    does once its chain has returned: the fallback is called iff the chain
    called no handler, so at least one handler is called in all; and the
    error is thrown iff, moreover, the chain has no call of
    [nonExhaustive]. *)
Theorem run_outcome (v : Value) (cs : list Call) (fallback : Matcher)
    (this' : Match) (log' : list Event) :
  chain cs (match_ v) [] = (Ok this', log') ->
  run v cs fallback [] =
    match handled log' with
    | [] => (if existsb is_nonExhaustive cs then Ok tt else Throw NonExhaustive,
             log' ++ [Handled fallback v])
    | _ :: _ => (Ok tt, log')
    end.
Proof.
  intros E. unfold run, bind. rewrite E, otherwise_run.
  pose proof (chain_exhaustiveCheck _ _ _ _ _ E) as Hx.
  pose proof (chain_frame _ _ _ _ _ E) as (Hv & _).
  destruct (chain_handled _ _ _ _ _ E) as (calls & Hh & Hm & _).
  simpl in Hh, Hx, Hv, Hm. rewrite Hx, Hv, Hh.
  destruct calls as [|call calls].
  - assert (Hf : matched this' = false).
    { destruct (matched this'); auto.
      destruct (proj1 Hm eq_refl) as [H|H]; [discriminate|now elim H]. }
    rewrite Hf. now destruct (existsb is_nonExhaustive cs).
  - assert (Ht : matched this' = true) by (apply Hm; right; discriminate).
    rewrite Ht. simpl. now rewrite andb_false_r.
Qed.

(** [match(7).with(1, h).otherwise(fb)] calls [fb] and throws. *)
Lemma run_outcome_witness :
  chain [Call_with (num 1) 1] (match_ (num 7)) [] = (Ok (match_ (num 7)), []) /\
  run (num 7) [Call_with (num 1) 1] 2 []
    = (Throw NonExhaustive, [] ++ [Handled 2 (num 7)]).
Proof.
  split; [reflexivity|].
  exact (run_outcome (num 7) [Call_with (num 1) 1] 2 (match_ (num 7)) [] eq_refl).
Defined.

(** ** Where [nonExhaustive] is called *)

(** No call reads [exhaustiveCheck]: clearing it before a call or after it
    is the same. *)
Lemma invoke_clear (c : Call) (this : Match) (log : list Event) :
  invoke c (clear_exhaustiveCheck this) log =
    match invoke c this log with
    | (Ok this', log') => (Ok (clear_exhaustiveCheck this'), log')
    | (Throw e, log') => (Throw e, log')
    end.
Proof.
  destruct c; simpl;
    unfold with_, withShape, withArray, withAll, withAny, withInstance,
           withRange, nonExhaustive, fire_if, bind, ret, lift, call; simpl.
  - destruct (negb (matched this) && strict_equals (value this) pattern); reflexivity.
  - destruct (matched this); simpl; auto.
    destruct (isDeepMatch (value this) shape) as [[|]|e]; reflexivity.
  - destruct (matched this); simpl; auto.
    destruct (value this); simpl; auto.
    destruct (isArrayMatch elems pattern) as [[|]|e]; reflexivity.
  - destruct (matched this); simpl; auto.
    destruct (every_guard patterns (value this) log) as [[[|]|e] log']; reflexivity.
  - destruct (matched this); simpl; auto.
    destruct (some_guard patterns (value this) log) as [[[|]|e] log']; reflexivity.
  - destruct (matched this); simpl; auto.
    destruct (instanceof (value this) constructor log) as [[[|]|e] log']; reflexivity.
  - destruct (in_range (value this) start end_); reflexivity.
  - reflexivity.
Qed.

Lemma chain_clear (cs : list Call) (this : Match) (log : list Event) :
  chain cs (clear_exhaustiveCheck this) log =
    match chain cs this log with
    | (Ok this', log') => (Ok (clear_exhaustiveCheck this'), log')
    | (Throw e, log') => (Throw e, log')
    end.
Proof.
  revert this log; induction cs as [|c cs IH]; intros this log; simpl.
  - reflexivity.
  - unfold bind. rewrite invoke_clear.
    destruct (invoke c this log) as [[this1|e] log1]; auto.
Qed.

(** X3.  It makes no difference where in a chain [nonExhaustive] is called:
    after any calls [cs1] it gives the session, the log and the outcome that
    calling it first gives; hence so does the [otherwise] that follows. *)
Theorem nonExhaustive_anywhere (cs1 cs2 : list Call) (this : Match)
    (log : list Event) :
  chain (cs1 ++ Call_nonExhaustive :: cs2) this log
    = chain (Call_nonExhaustive :: cs1 ++ cs2) this log.
Proof.
  rewrite chain_app. simpl. unfold bind at 2. unfold nonExhaustive at 2, ret at 1.
  rewrite chain_app, chain_clear.
  destruct (chain cs1 this log) as [[this1|e] log1]; reflexivity.
Qed.

(** ** The guards of [withAll] and [withAny] *)

Lemma every_guard_all (patterns : list Guard) (v : Value) (log : list Event) :
  Forall (fun p => guard_test p v = Ok true) patterns ->
  every_guard patterns v log = (Ok true, log ++ map (tested v) patterns).
Proof.
  intros H; revert log; induction H as [|p rest Hp _ IH]; intros log; simpl.
  - now rewrite app_nil_r.
  - unfold bind, test. rewrite Hp, IH. now rewrite <- app_assoc.
Qed.

(** The first guard that does not answer [true] ends the walk with what it
    answers or throws. *)
Lemma every_guard_stop (pre : list Guard) (p : Guard) (post : list Guard)
    (v : Value) (log : list Event) :
  Forall (fun p => guard_test p v = Ok true) pre -> guard_test p v <> Ok true ->
  every_guard (pre ++ p :: post) v log
    = (guard_test p v, log ++ map (tested v) (pre ++ [p])).
Proof.
  intros H Hp; revert log; induction H as [|q pre Hq _ IH]; intros log; simpl.
  - unfold bind, test. destruct (guard_test p v) as [[|]|e]; auto. now elim Hp.
  - unfold bind, test. rewrite Hq, IH. now rewrite <- app_assoc.
Qed.

Lemma some_guard_none (patterns : list Guard) (v : Value) (log : list Event) :
  Forall (fun p => guard_test p v = Ok false) patterns ->
  some_guard patterns v log = (Ok false, log ++ map (tested v) patterns).
Proof.
  intros H; revert log; induction H as [|p rest Hp _ IH]; intros log; simpl.
  - now rewrite app_nil_r.
  - unfold bind, test. rewrite Hp, IH. now rewrite <- app_assoc.
Qed.

(** The first guard that does not answer [false] ends the walk with what it
    answers or throws. *)
Lemma some_guard_stop (pre : list Guard) (p : Guard) (post : list Guard)
    (v : Value) (log : list Event) :
  Forall (fun p => guard_test p v = Ok false) pre -> guard_test p v <> Ok false ->
  some_guard (pre ++ p :: post) v log
    = (guard_test p v, log ++ map (tested v) (pre ++ [p])).
Proof.
  intros H Hp; revert log; induction H as [|q pre Hq _ IH]; intros log; simpl.
  - unfold bind, test. destruct (guard_test p v) as [[|]|e]; auto. now elim Hp.
  - unfold bind, test. rewrite Hq, IH. now rewrite <- app_assoc.
Qed.

(** X4.  [withAll] on an open session calls its guards in order and stops at
    the first that answers [false]: the guards after it are not called and
    the clause does not fire.  When all answer [true], all were called, and
    then the handler.  A guard that throws, the ones before it answering
    [true], ends the call with what it threw: no later guard is called and
    the clause does not fire. *)
Theorem withAll_stops_at_first_false (patterns : list Guard) (fn : Matcher)
    (this : Match) (log : list Event) :
  matched this = false ->
  (Forall (fun p => guard_test p (value this) = Ok true) patterns ->
   withAll patterns fn this log
     = (Ok (set_matched this),
        log ++ map (tested (value this)) patterns ++ [Handled fn (value this)])) /\
  (forall pre p post,
     patterns = pre ++ p :: post ->
     Forall (fun p => guard_test p (value this) = Ok true) pre ->
     guard_test p (value this) = Ok false ->
     withAll patterns fn this log
       = (Ok this, log ++ map (tested (value this)) (pre ++ [p]))) /\
  (forall pre p post e,
     patterns = pre ++ p :: post ->
     Forall (fun p => guard_test p (value this) = Ok true) pre ->
     guard_test p (value this) = Throw e ->
     withAll patterns fn this log
       = (Throw e, log ++ map (tested (value this)) (pre ++ [p]))).
Proof.
  intros Hm. unfold withAll, bind. rewrite Hm. simpl. split; [|split].
  - intros H. rewrite every_guard_all by assumption. simpl.
    unfold call, bind, ret. now rewrite <- app_assoc.
  - intros pre p post -> Hpre Hp.
    rewrite every_guard_stop by (auto; congruence). now rewrite Hp.
  - intros pre p post e -> Hpre Hp.
    rewrite every_guard_stop by (auto; congruence). now rewrite Hp.
Qed.

(** Guards [g1; g2; g3] on 5, of which [g2] answers [false] and [g3] would
    throw: [g3] is not called. *)
Lemma withAll_stops_at_first_false_witness :
  let yes := {| guard_name := 1; guard_test := fun _ => Ok true |} in
  let no := {| guard_name := 2; guard_test := fun _ => Ok false |} in
  let last := {| guard_name := 3; guard_test := fun _ => Throw (Raised 0) |} in
  matched (match_ (num 5)) = false /\
  withAll [yes; no; last] 9 (match_ (num 5)) []
    = (Ok (match_ (num 5)), [Tested 1 (num 5); Tested 2 (num 5)]).
Proof.
  split; [reflexivity|].
  apply (proj1 (proj2 (withAll_stops_at_first_false
                  [ {| guard_name := 1; guard_test := fun _ => Ok true |};
                    {| guard_name := 2; guard_test := fun _ => Ok false |};
                    {| guard_name := 3; guard_test := fun _ => Throw (Raised 0) |} ]
                  9 (match_ (num 5)) [] eq_refl))
           [ {| guard_name := 1; guard_test := fun _ => Ok true |} ]
           {| guard_name := 2; guard_test := fun _ => Ok false |}
           [ {| guard_name := 3; guard_test := fun _ => Throw (Raised 0) |} ]);
    [reflexivity | repeat constructor | reflexivity].
Defined.

(** X5.  [withAny] on an open session calls its guards in order and stops at
    the first that answers [true]: the guards after it are not called and
    the handler is.  When all answer [false], all were called and the clause
    does not fire.  A guard that throws, the ones before it answering
    [false], ends the call with what it threw: no later guard is called and
    the clause does not fire. *)
Theorem withAny_stops_at_first_true (patterns : list Guard) (fn : Matcher)
    (this : Match) (log : list Event) :
  matched this = false ->
  (Forall (fun p => guard_test p (value this) = Ok false) patterns ->
   withAny patterns fn this log
     = (Ok this, log ++ map (tested (value this)) patterns)) /\
  (forall pre p post,
     patterns = pre ++ p :: post ->
     Forall (fun p => guard_test p (value this) = Ok false) pre ->
     guard_test p (value this) = Ok true ->
     withAny patterns fn this log
       = (Ok (set_matched this),
          log ++ map (tested (value this)) (pre ++ [p])
              ++ [Handled fn (value this)])) /\
  (forall pre p post e,
     patterns = pre ++ p :: post ->
     Forall (fun p => guard_test p (value this) = Ok false) pre ->
     guard_test p (value this) = Throw e ->
     withAny patterns fn this log
       = (Throw e, log ++ map (tested (value this)) (pre ++ [p]))).
Proof.
  intros Hm. unfold withAny, bind. rewrite Hm. simpl. split; [|split].
  - intros H. now rewrite some_guard_none.
  - intros pre p post -> Hpre Hp.
    rewrite some_guard_stop by (auto; congruence). rewrite Hp.
    simpl. unfold call, bind, ret. now rewrite <- app_assoc.
  - intros pre p post e -> Hpre Hp.
    rewrite some_guard_stop by (auto; congruence). now rewrite Hp.
Qed.

Lemma withAny_stops_at_first_true_witness :
  let no := {| guard_name := 1; guard_test := fun _ => Ok false |} in
  let yes := {| guard_name := 2; guard_test := fun _ => Ok true |} in
  let last := {| guard_name := 3; guard_test := fun _ => Throw (Raised 0) |} in
  matched (match_ (num 5)) = false /\
  withAny [no; yes; last] 9 (match_ (num 5)) []
    = (Ok (set_matched (match_ (num 5))),
       [Tested 1 (num 5); Tested 2 (num 5); Handled 9 (num 5)]).
Proof.
  split; [reflexivity|].
  apply (proj1 (proj2 (withAny_stops_at_first_true
                  [ {| guard_name := 1; guard_test := fun _ => Ok false |};
                    {| guard_name := 2; guard_test := fun _ => Ok true |};
                    {| guard_name := 3; guard_test := fun _ => Throw (Raised 0) |} ]
                  9 (match_ (num 5)) [] eq_refl))
           [ {| guard_name := 1; guard_test := fun _ => Ok false |} ]
           {| guard_name := 2; guard_test := fun _ => Ok true |}
           [ {| guard_name := 3; guard_test := fun _ => Throw (Raised 0) |} ]);
    [reflexivity | repeat constructor | reflexivity].
Defined.






(** ** The bounds of [withRange] *)

Lemma SFleb_trans (a b c : spec_float) :
  SFleb a b = true -> SFleb b c = true -> SFleb a c = true.
Proof.
  unfold SFleb.
  destruct a as [sa|sa| |sa ma ea], b as [sb|sb| |sb mb eb], c as [sc|sc| |sc mc ec];
    simpl; try discriminate; auto;
    try (destruct sa); try (destruct sb); try (destruct sc); simpl;
      try discriminate; auto;
    intros H1 H2; compare_cases; simpl in *; try discriminate; auto; try lia.
Qed.

Lemma SFleb_ltb (a b : spec_float) :
  SFleb a b = true -> SFltb b a = true -> False.
Proof.
  unfold SFleb, SFltb.
  destruct a as [sa|sa| |sa ma ea], b as [sb|sb| |sb mb eb];
    simpl; try discriminate;
    try (destruct sa); try (destruct sb); simpl; try discriminate;
    intros H1 H2; compare_cases; simpl in *; try discriminate; try lia.
Qed.

Lemma leb_trans (x y z : float) :
  PrimFloat.leb x y = true -> PrimFloat.leb y z = true -> PrimFloat.leb x z = true.
Proof. rewrite !leb_spec. apply SFleb_trans. Qed.

Lemma leb_nan (x y : float) :
  PrimFloat.is_nan x = true \/ PrimFloat.is_nan y = true -> PrimFloat.leb x y = false.
Proof.
  assert (Hnan : forall z, PrimFloat.is_nan z = true -> Prim2SF z = S754_nan).
  { intros z Hz. unfold Prim2SF. now rewrite Hz. }
  rewrite leb_spec. unfold SFleb.
  intros [H|H]; rewrite (Hnan _ H).
  - reflexivity.
  - now destruct (Prim2SF x).
Qed.

(** X7.  A range that is empty or ill-formed never fires: [withRange] with
    [end < start], or with a NaN bound, returns the session and the log as
    they were, on every subject; and so it does on a NaN subject, whatever
    the bounds. *)
Theorem withRange_empty_range (start end_ : float) (fn : Matcher) (this : Match)
    (log : list Event) :
  PrimFloat.ltb end_ start = true \/ PrimFloat.is_nan start = true \/
  PrimFloat.is_nan end_ = true \/
  (exists n, value this = VNum n /\ PrimFloat.is_nan n = true) ->
  withRange start end_ fn this log = (Ok this, log).
Proof.
  intros H. rewrite withRange_run.
  destruct (in_range (value this) start end_) eqn:Hr; [|reflexivity].
  exfalso. apply in_range_iff in Hr as (n & Hv & H1 & H2).
  destruct H as [H|[H|[H|(n' & Hv' & H)]]].
  - pose proof (leb_trans _ _ _ H1 H2) as H3.
    rewrite leb_spec in H3. rewrite ltb_spec in H. eapply SFleb_ltb; eauto.
  - rewrite leb_nan in H1; auto; discriminate.
  - rewrite leb_nan in H2; auto; discriminate.
  - rewrite Hv in Hv'. inversion Hv'; subst.
    rewrite leb_nan in H1; auto; discriminate.
Qed.

(** [match(5).withRange(10, 1, h)] *)
Lemma withRange_empty_range_witness :
  PrimFloat.ltb 1 10 = true /\
  withRange 10 1 1 (match_ (num 5)) [] = (Ok (match_ (num 5)), []).
Proof.
  split; [reflexivity|].
  exact (withRange_empty_range 10 1 1 (match_ (num 5)) [] (or_introl eq_refl)).
Defined.

(** X8.  Ranges nest: a subject that fires [withRange(start, end)] fires
    every [withRange(start', end')] with [start' <= start] and
    [end <= end']. *)
Theorem withRange_nested (start end_ start' end' : float) (v : Value) :
  PrimFloat.leb start' start = true -> PrimFloat.leb end_ end' = true ->
  in_range v start end_ = true ->
  in_range v start' end' = true /\
  forall fn this log,
    value this = v ->
    withRange start' end' fn this log
      = (Ok (set_matched this), log ++ [Handled fn v]).
Proof.
  intros Hs He Hr.
  assert (Hr' : in_range v start' end' = true).
  { apply in_range_iff in Hr as (n & -> & H1 & H2).
    apply in_range_iff. exists n. split; [reflexivity|].
    split; eapply leb_trans; eauto. }
  split; [exact Hr'|].
  intros fn this log <-. now rewrite withRange_run, Hr'.
Qed.

Lemma withRange_nested_witness :
  PrimFloat.leb 1 3 = true /\ PrimFloat.leb 7 10 = true /\
  in_range (num 5) 3 7 = true /\ in_range (num 5) 1 10 = true.
Proof.
  repeat (split; [reflexivity|]).
  exact (proj1 (withRange_nested 3 7 1 10 (num 5) eq_refl eq_refl eq_refl)).
Defined.

(** ** The number of a length *)

Lemma shr_1_nonneg (mrs : shr_record) :
  (0 <= shr_m mrs)%Z -> (0 <= shr_m (shr_1 mrs))%Z.
Proof.
  destruct mrs as [m r s]. destruct m as [|[p|p|]|[p|p|]]; simpl; lia.
Qed.

Lemma iter_shr_1_nonneg (p : positive) (mrs : shr_record) :
  (0 <= shr_m mrs)%Z -> (0 <= shr_m (iter_pos shr_1 p mrs))%Z.
Proof.
  revert mrs; induction p as [p IH|p IH|]; intros mrs H; simpl.
  - apply IH, IH, shr_1_nonneg, H.
  - apply IH, IH, H.
  - apply shr_1_nonneg, H.
Qed.

Lemma shr_fexp_nonneg (prec emax m e : Z) (l : location) :
  (0 <= m)%Z -> (0 <= shr_m (fst (shr_fexp prec emax m e l)))%Z.
Proof.
  intros H. unfold shr_fexp, shr.
  assert (H0 : (0 <= shr_m (shr_record_of_loc m l))%Z)
    by (destruct l as [|[]]; exact H).
  destruct (_ - e)%Z; simpl; auto. now apply iter_shr_1_nonneg.
Qed.

Lemma round_nearest_even_nonneg (m : Z) (l : location) :
  (0 <= m)%Z -> (0 <= round_nearest_even m l)%Z.
Proof. destruct l as [|[]]; simpl; try lia. destruct (Z.even m); lia. Qed.

(** Rounding an integer to a float gives no NaN. *)
Lemma binary_normalize_not_nan (prec emax m e : Z) (s : bool) :
  binary_normalize prec emax m e s <> S754_nan.
Proof.
  assert (H : forall sx mx ex,
            binary_round_aux prec emax sx (Z.pos mx) ex loc_Exact <> S754_nan).
  { intros sx mx ex. unfold binary_round_aux.
    pose proof (shr_fexp_nonneg prec emax (Z.pos mx) ex loc_Exact ltac:(lia)) as H1.
    destruct (shr_fexp prec emax (Z.pos mx) ex loc_Exact) as [mrs' e']. simpl in H1.
    pose proof (shr_fexp_nonneg prec emax
                  (round_nearest_even (shr_m mrs') (loc_of_shr_record mrs')) e'
                  loc_Exact (round_nearest_even_nonneg _ _ H1)) as H2.
    destruct (shr_fexp prec emax _ e' loc_Exact) as [mrs'' e'']. simpl in H2.
    destruct (shr_m mrs''); try lia; try discriminate.
    destruct (e'' <=? emax - prec)%Z; discriminate. }
  destruct m; simpl; try discriminate; unfold binary_round;
    destruct (shl_align _ _ _); apply H.
Qed.

Lemma SFeqb_refl (s : spec_float) : s <> S754_nan -> SFeqb s s = true.
Proof.
  unfold SFeqb.
  destruct s as [[]|[]| |[] m e]; simpl; try reflexivity; try congruence;
    intros _; rewrite Z.compare_refl;
    change (Pos.compare_cont Eq m m) with (Pos.compare m m);
    now rewrite Pos.compare_refl.
Qed.

(** A length is [===] to itself. *)
Lemma number_of_nat_eqb (n : nat) :
  PrimFloat.eqb (number_of_nat n) (number_of_nat n) = true.
Proof.
  unfold number_of_nat. rewrite eqb_spec, of_uint63_spec.
  apply SFeqb_refl, binary_normalize_not_nan.
Qed.

(** ** The structural matcher on literals and on arrays *)

(** Off objects the matcher is [===]. *)
Lemma isDeepMatch_non_object (value pattern : Value) :
  is_object value = false \/ is_object pattern = false ->
  isDeepMatch value pattern = Ok (strict_equals value pattern).
Proof.
  intros H. rewrite isDeepMatch_eq.
  destruct (negb (String.eqb (typeof value) "object") || strict_equals value VNull)
    eqn:Hv; [reflexivity|].
  assert (Hobj : is_object value = true).
  { unfold is_object. apply orb_false_elim in Hv as [H1 H2].
    apply negb_false_iff in H1. now rewrite H1, H2. }
  destruct H as [H|H]; [congruence|].
  unfold isArrayPattern. fold (is_object pattern). rewrite H, andb_false_r. simpl.
  destruct value; try discriminate; destruct pattern; try discriminate; reflexivity.
Qed.

(** X9.  Where the value or the pattern is not an object (a primitive,
    [null] or [undefined]), [isDeepMatch] is [===] and never throws: a
    literal pattern matches no object, an object pattern matches no
    primitive. *)
Theorem isDeepMatch_literal (value pattern : Value) :
  is_object value = false \/ is_object pattern = false ->
  isDeepMatch value pattern = Ok (strict_equals value pattern).
Proof. apply isDeepMatch_non_object. Qed.

Lemma isDeepMatch_literal_witness :
  is_object (VStr "user") = false /\
  isDeepMatch (object 1 [("type", VStr "user")]) (VStr "user") = Ok false /\
  isDeepMatch (VStr "user") (VStr "user") = Ok true.
Proof.
  split; [reflexivity|]. split.
  - exact (isDeepMatch_literal (object 1 [("type", VStr "user")]) (VStr "user")
             (or_intror eq_refl)).
  - reflexivity.
Defined.

(** Array against array: the lengths are compared. *)
Lemma isDeepMatch_arrays (r : Ref) (elems : list Value) (r' : Ref)
    (elems' : list Value) :
  isDeepMatch (VArr r elems) (VArr r' elems')
    = Ok (strict_equals (VNum (number_of_nat (List.length elems)))
                        (VNum (number_of_nat (List.length elems')))).
Proof.
  rewrite isDeepMatch_eq.
  change (isArray (VArr r elems) && isArrayPattern (VArr r' elems')) with true.
  cbn [typeof String.eqb negb orb strict_equals].
  rewrite isArrayMatch_eq, Get_VArr_length, Get_VArr_elements.
  cbn [rbind truthy negb andb orb strict_equals].
  now destruct (PrimFloat.eqb _ _).
Qed.

(** X10.  A pattern that is itself an array constrains the length only: on
    an array value, [isDeepMatch] compares the two lengths with [===] and
    never looks at the elements of either, so that an array pattern matches
    every array of its length: the pattern [[1]] matches the value [[5]]. *)
Theorem isDeepMatch_array_literal :
  (forall r elems r' elems',
     isDeepMatch (VArr r elems) (VArr r' elems')
       = Ok (strict_equals (VNum (number_of_nat (List.length elems)))
                           (VNum (number_of_nat (List.length elems'))))) /\
  (forall r elems r' elems',
     List.length elems = List.length elems' ->
     isDeepMatch (VArr r elems) (VArr r' elems') = Ok true) /\
  (forall r elems r' elems' other other',
     List.length other = List.length elems ->
     List.length other' = List.length elems' ->
     isDeepMatch (VArr r other) (VArr r' other')
       = isDeepMatch (VArr r elems) (VArr r' elems')) /\
  isDeepMatch (array 1 [num 5]) (array 2 [num 1]) = Ok true.
Proof.
  pose proof isDeepMatch_arrays as H.
  split; [exact H|]. split; [|split; [|reflexivity]].
  - intros r elems r' elems' Hlen. rewrite H, Hlen. simpl.
    now rewrite number_of_nat_eqb.
  - intros r elems r' elems' other other' Ho Ho'. now rewrite !H, Ho, Ho'.
Qed.

Lemma isDeepMatch_array_literal_witness :
  List.length [num 5; num 6] = List.length [num 1; num 2] /\
  List.length [num 7; num 8] = List.length [num 3; num 4] /\
  isDeepMatch (VArr 1 [num 5; num 6]) (VArr 2 [num 7; num 8])
    = isDeepMatch (VArr 1 [num 1; num 2]) (VArr 2 [num 3; num 4]).
Proof.
  split; [reflexivity|]. split; [reflexivity|].
  exact (proj1 (proj2 (proj2 isDeepMatch_array_literal))
           1 [num 1; num 2] 2 [num 3; num 4] [num 5; num 6] [num 7; num 8]
           eq_refl eq_refl).
Defined.

(** X11.  On an array subject, a shape that has a [length] or an [elements]
    key is an array pattern: [withShape] with it does what [withArray]
    does. *)
Theorem withShape_is_withArray (pattern : Value) (fn : Matcher) (this : Match)
    (log : list Event) :
  isArray (value this) = true -> isArrayPattern pattern = true ->
  withShape pattern fn this log = withArray pattern fn this log.
Proof.
  intros Hv Hp. unfold withShape, withArray.
  destruct (value this) as [| | | | |r elems|] eqn:Ev; try discriminate.
  rewrite isDeepMatch_eq, Hp. reflexivity.
Qed.

Lemma withShape_is_withArray_witness :
  let this := match_ (array 1 [num 1; num 2; num 3]) in
  let pattern := object 2 [("length", num 3)] in
  isArray (value this) = true /\ isArrayPattern pattern = true /\
  withShape pattern 1 this [] = withArray pattern 1 this [].
Proof.
  split; [reflexivity|]. split; [reflexivity|].
  exact (withShape_is_withArray (object 2 [("length", num 3)]) 1
           (match_ (array 1 [num 1; num 2; num 3])) [] eq_refl eq_refl).
Defined.

(** X12.  A pattern entry [(key, literal)] is met by an object iff the key
    is [in] the object, as an own property or as one it has non-enumerable or
    inherits, and the value read off it is [===] to the literal.  With the
    literal [undefined], the key must be there holding [undefined]: an
    object without the key does not match, though reading the key off it
    gives [undefined]. *)
Theorem isDeepMatch_entry_literal (r : Ref) (protos : Inherited Value)
    (props : list (string * Value)) (r' : Ref) (protos' : Inherited Value)
    (key : string) (literal : Value) :
  is_object literal = false ->
  isDeepMatch (VObj r protos props) (VObj r' protos' [(key, literal)])
    = Ok (match property (VObj r protos props) key with
          | Some v => strict_equals v literal
          | None => false
          end).
Proof.
  intros Hl. rewrite isDeepMatch_eq. cbn -[isDeepMatch property].
  unfold every; cbn -[isDeepMatch property]. unfold has_property, get_property.
  destruct (property (VObj r protos props) key) as [v|]; cbn -[isDeepMatch];
    [|reflexivity].
  rewrite isDeepMatch_non_object by auto.
  now destruct (strict_equals v literal).
Qed.

(** An object without the key [b]; one with [b] holding [undefined]; and an
    error, whose [message] is not enumerable. *)
Lemma isDeepMatch_entry_literal_witness :
  let error := VObj 3 {| prototypes := [Object_prototype];
                         hidden := [("message", VStr "x");
                                    ("__proto__", Object_prototype_value)] |} [] in
  is_object VUndefined = false /\
  isDeepMatch (object 1 [("a", num 1)]) (object 2 [("b", VUndefined)]) = Ok false /\
  isDeepMatch (object 1 [("a", num 1); ("b", VUndefined)])
              (object 2 [("b", VUndefined)]) = Ok true /\
  get_property (object 1 [("a", num 1)]) "b" = VUndefined /\
  isDeepMatch error (object 2 [("message", VStr "x")]) = Ok true.
Proof.
  split; [reflexivity|]. split; [|repeat split; reflexivity].
  exact (isDeepMatch_entry_literal 1 _ [("a", num 1)] 2 _ "b" VUndefined eq_refl).
Defined.

(** X13.  On an object that is no array, a pattern is the conjunction of its
    entries: a pattern made of the entries of two patterns matches iff both
    match, and so a pattern keeps matching when entries are taken off it. *)
Theorem isDeepMatch_entries_append (r : Ref) (protos : Inherited Value)
    (props : list (string * Value)) (r1 r2 r3 : Ref)
    (protos1 protos2 protos3 : Inherited Value)
    (entries1 entries2 : list (string * Value)) :
  let value := VObj r protos props in
  isDeepMatch value (VObj r1 protos1 (entries1 ++ entries2)) = Ok true <->
  isDeepMatch value (VObj r2 protos2 entries1) = Ok true /\
  isDeepMatch value (VObj r3 protos3 entries2) = Ok true.
Proof.
  intros value.
  rewrite !isDeepMatch_object by reflexivity. simpl.
  apply Forall_app.
Qed.

(** ** Patterns typed as the interface declares *)

(** Induction on a value, with the hypothesis on every element of an array
    and on every property of an object, own or not. *)
Lemma Value_nested_ind (P : Value -> Prop) :
  P VUndefined -> P VNull -> (forall b, P (VBool b)) -> (forall n, P (VNum n)) ->
  (forall s, P (VStr s)) ->
  (forall r elems, Forall P elems -> P (VArr r elems)) ->
  (forall r protos props,
     Forall (fun kv => P (snd kv)) (hidden protos) ->
     Forall (fun kv => P (snd kv)) props ->
     P (VObj r protos props)) ->
  forall v, P v.
Proof.
  intros Hu Hn Hb Hnum Hs Harr Hobj. fix IH 1.
  intros [| |b|n|s|r elems|r [chain inherited] props].
  - exact Hu.
  - exact Hn.
  - apply Hb.
  - apply Hnum.
  - apply Hs.
  - apply Harr. induction elems as [|v elems IHl]; constructor; [apply IH|exact IHl].
  - apply Hobj; simpl.
    + induction inherited as [|[k v] inherited IHl]; constructor;
        [apply IH|exact IHl].
    + induction props as [|[k v] props IHl]; constructor; [apply IH|exact IHl].
Qed.

Lemma every_from_returns {A : Type} (f : nat -> A -> result bool) (l : list A)
    (start : nat) :
  Forall (fun x => forall i, exists b, f i x = Ok b) l ->
  exists b, every_from f start l = Ok b.
Proof.
  intros H; revert start; induction H as [|x l Hx _ IH]; intros start; simpl.
  - eauto.
  - destruct (Hx start) as [[|] ->]; eauto.
Qed.

Lemma lookup_In (k : string) (props : list (string * Value)) (v : Value) :
  lookup k props = Some v -> In (k, v) props.
Proof.
  induction props as [|[k' v'] props IH]; simpl; [discriminate|].
  destruct (String.eqb_spec k k') as [->|_]; auto.
  intros H; inversion H; subst; auto.
Qed.

(** A property of an object is one of its own or one of the others. *)
Lemma property_In (r : Ref) (protos : Inherited Value)
    (props : list (string * Value)) (k : string) (v : Value) :
  property (VObj r protos props) k = Some v ->
  In (k, v) props \/ In (k, v) (hidden protos).
Proof.
  simpl. destruct (lookup k props) eqn:E.
  - intros H; inversion H; subst. left. now apply lookup_In.
  - intros H. right. now apply lookup_In.
Qed.

Lemma Get_property (o : Value) (k : string) :
  is_object o = true ->
  Get o k = Ok (match property o k with Some v => v | None => VUndefined end).
Proof. destruct o; try discriminate; reflexivity. Qed.

(** What [isDeepMatch] returns on a typed pattern, and on the elements of a
    typed array. *)
Lemma isDeepMatch_typed_returns (pattern : Value) :
  (elements_typed pattern = true ->
   forall value, exists b, isDeepMatch value pattern = Ok b) /\
  (forall r elems, pattern = VArr r elems ->
     Forall (fun elem => elements_typed elem = true ->
               forall value, exists b, isDeepMatch value elem = Ok b) elems).
Proof.
  induction pattern as [| |b|n|s|r elems IH|r protos props IHh IH]
    using Value_nested_ind;
    try (split; [intros _ value; rewrite isDeepMatch_non_object by auto; eauto
                |intros; discriminate]).
  - assert (Helems : Forall (fun elem => elements_typed elem = true ->
               forall value, exists b, isDeepMatch value elem = Ok b) elems).
    { eapply Forall_impl; [|exact IH]. intros elem H. apply H. }
    split; [|intros r' elems' E; inversion E; subst; exact Helems].
    intros Ht value. rewrite isDeepMatch_eq.
    destruct (negb _ || _); [eauto|].
    destruct (isArray value && _) eqn:Ha.
    + destruct value; try discriminate.
      rewrite isArrayMatch_eq, Get_VArr_length, Get_VArr_elements.
      cbn [rbind truthy]. destruct (negb _ && negb _); eauto.
    + cbn [typeof String.eqb Ascii.eqb Bool.eqb strict_equals negb andb entries_every].
      apply every_from_returns.
      simpl in Ht. rewrite forallb_forall in Ht. rewrite Forall_forall in *.
      intros elem Hin i. destruct (negb _); eauto.
  - assert (Hprops : Forall (fun kv => elements_typed (snd kv) = true ->
               forall value, exists b, isDeepMatch value (snd kv) = Ok b) props).
    { eapply Forall_impl; [|exact IH]. intros kv H. apply H. }
    split; [|intros; discriminate].
    intros Ht value.
    assert (Hall : forall kv, In kv props \/ In kv (hidden protos) ->
                     elements_typed (snd kv) = true).
    { destruct protos as [chain inherited]. simpl in Ht.
      apply andb_prop in Ht as [Ht _]. apply andb_prop in Ht as [H1 H2].
      rewrite forallb_forall in H1, H2. intros kv [Hin|Hin]; auto. }
    assert (Hel : match property (VObj r protos props) "elements" with
                  | Some elements => negb (truthy elements) || isArray elements
                  | None => true
                  end = true).
    { destruct protos as [chain inherited]. simpl in Ht.
      apply andb_prop in Ht as [_ Ht]. exact Ht. }
    assert (Hsub : forall k re pelems,
              In (k, VArr re pelems) props \/ In (k, VArr re pelems) (hidden protos) ->
              Forall (fun elem => forall v, exists b, isDeepMatch v elem = Ok b) pelems).
    { intros k re pelems Hin.
      assert (H : Forall (fun elem => elements_typed elem = true ->
                   forall value, exists b, isDeepMatch value elem = Ok b) pelems).
      { rewrite Forall_forall in IH, IHh.
        destruct Hin as [Hin|Hin];
          [apply (proj2 (IH _ Hin) re pelems eq_refl)
          |apply (proj2 (IHh _ Hin) re pelems eq_refl)]. }
      pose proof (Hall _ Hin) as Htyped. simpl in Htyped.
      rewrite forallb_forall in Htyped. rewrite Forall_forall in *.
      intros elem He. apply H; auto. }
    rewrite isDeepMatch_eq.
    destruct (negb _ || _); [eauto|].
    destruct (isArray value && _) eqn:Ha.
    + destruct value as [| | | | |rv velems|]; try discriminate.
      rewrite isArrayMatch_eq, !Get_property by reflexivity. cbn [rbind].
      destruct (negb _ && negb _); [eauto|].
      destruct (property (VObj r protos props) "elements") as [elements|] eqn:El;
        [|cbn [truthy]; eauto].
      destruct (truthy elements); [|eauto]. simpl in Hel.
      destruct elements as [| | | | |re pelems|]; try discriminate.
      destruct (Nat.ltb _ _); [eauto|].
      apply every_from_returns.
      apply property_In in El. apply Hsub in El.
      rewrite Forall_forall in *. intros elem Hin i. now apply El.
    + cbn [typeof String.eqb Ascii.eqb Bool.eqb strict_equals negb andb entries_every].
      apply every_from_returns.
      rewrite Forall_forall in *. intros kv Hin i.
      destruct (negb _); eauto.
Qed.

(** X14.  On a pattern typed as [interface ArrayPattern] declares (every
    [elements], at any depth, an array or missing), [isDeepMatch] returns a
    boolean for every value: it throws nothing. *)
Theorem isDeepMatch_returns (value pattern : Value) :
  elements_typed pattern = true ->
  exists b, isDeepMatch value pattern = Ok b.
Proof. intros H. now apply isDeepMatch_typed_returns. Qed.

Lemma isDeepMatch_returns_witness :
  let pattern := object 1 [("tags", object 2 [("elements", array 3 [VStr "a"])])] in
  elements_typed pattern = true /\
  exists b, isDeepMatch (object 4 [("tags", array 5 [VStr "a"; VStr "b"])]) pattern = Ok b.
Proof.
  split; [reflexivity|].
  exact (isDeepMatch_returns (object 4 [("tags", array 5 [VStr "a"; VStr "b"])])
           (object 1 [("tags", object 2 [("elements", array 3 [VStr "a"])])])
           eq_refl).
Defined.

Lemma isArrayMatch_returns (elems : list Value) (pattern : Value) :
  is_object pattern = true -> elements_typed pattern = true ->
  exists b, isArrayMatch elems pattern = Ok b.
Proof.
  intros Ho Ht.
  destruct (isArrayPattern pattern) eqn:Hp.
  - destruct (proj1 (isDeepMatch_typed_returns pattern) Ht (VArr 0 elems)) as [b Hb].
    rewrite isDeepMatch_eq, Hp in Hb. eauto.
  - rewrite isArrayMatch_eq, !Get_property by assumption.
    unfold isArrayPattern, has_property in Hp.
    destruct pattern as [| | | | |r pelems|r protos props]; try discriminate.
    cbn [typeof String.eqb Ascii.eqb Bool.eqb strict_equals negb andb] in Hp.
    destruct (property _ "length"); [discriminate|].
    destruct (property _ "elements"); [discriminate|].
    simpl. eauto.
Qed.

Lemma every_from_throws {A : Type} (f : nat -> A -> result bool) (l : list A)
    (start : nat) (e : Error) :
  every_from f start l = Throw e -> exists x i, In x l /\ f i x = Throw e.
Proof.
  revert start; induction l as [|x l IH]; intros start; simpl; [discriminate|].
  destruct (f start x) as [[|]|e'] eqn:E.
  - intros H. destruct (IH _ H) as (y & i & Hin & Hy). eauto.
  - discriminate.
  - intros H; inversion H; subst. eauto.
Qed.

Lemma some_from_throws {A : Type} (f : nat -> A -> result bool) (l : list A)
    (start : nat) (e : Error) :
  some_from f start l = Throw e -> exists x i, In x l /\ f i x = Throw e.
Proof.
  revert start; induction l as [|x l IH]; intros start; simpl; [discriminate|].
  destruct (f start x) as [[|]|e'] eqn:E.
  - discriminate.
  - intros H. destruct (IH _ H) as (y & i & Hin & Hy). eauto.
  - intros H; inversion H; subst. eauto.
Qed.

(** On a shape or an array pattern with typed [elements], the predicate of
    a call throws only what one of the caller's predicates threw. *)
Lemma predicate_throws (c : Call) (v : Value) (e : Error) :
  elements_typed_call c = true -> predicate c v = Throw e ->
  exists p, In p (guards_of c) /\ guard_test p v = Throw e.
Proof.
  intros Hc Hp.
  destruct c as [pattern fn|shape fn|pattern fn|patterns fn|patterns fn|ctor fn| |];
    simpl in *; try discriminate.
  - destruct (proj1 (isDeepMatch_typed_returns shape) Hc v) as [b Hb]. congruence.
  - apply andb_prop in Hc as [Ho Ht].
    destruct v; try discriminate.
    destruct (isArrayMatch_returns elems pattern Ho Ht) as [b Hb]. congruence.
  - apply every_from_throws in Hp as (p & i & Hin & Hp). eauto.
  - apply some_from_throws in Hp as (p & i & Hin & Hp). eauto.
  - destruct (hasInstance ctor) as [method|]; [|discriminate].
    exists method. simpl. auto.
Qed.

Lemma invoke_throws (c : Call) (this : Match) (log log' : list Event) (e : Error) :
  invoke c this log = (Throw e, log') -> predicate c (value this) = Throw e.
Proof.
  intros E.
  destruct (checks_matched c) eqn:Hc.
  - destruct (matched this) eqn:Hm.
    + rewrite invoke_resolved in E by assumption. discriminate.
    + pose proof (invoke_open c this log Hc Hm) as Hi.
      destruct (predicate c (value this)) as [[|]|e'].
      * destruct Hi as (fn & tests & _ & _ & Ei). congruence.
      * destruct Hi as (tests & _ & Ei). congruence.
      * destruct Hi as (tests & _ & Ei). congruence.
  - destruct c; try discriminate; simpl in E.
    rewrite withRange_run in E. destruct (in_range _ _ _); discriminate.
Qed.

Lemma chain_throws (cs : list Call) (this : Match) (log : list Event) (e : Error) :
  fst (chain cs this log) = Throw e ->
  exists c, In c cs /\ predicate c (value this) = Throw e.
Proof.
  revert this log; induction cs as [|c cs IH]; intros this log; simpl;
    [discriminate|].
  unfold bind. destruct (invoke c this log) as [[this1|e1] log1] eqn:E1.
  - intros H. apply IH in H as (c' & Hin & Hp).
    apply invoke_frame in E1 as (Hv & _). rewrite Hv in Hp. eauto.
  - simpl. intros H; inversion H; subst. apply invoke_throws in E1. eauto.
Qed.

(** X15.  A chain whose shapes and array patterns have typed [elements]
    (which the signature of [withArray] declares and that of [withShape]
    does not: there it is a condition on the shape) throws only what one of
    the caller's predicates (a guard of [withAll] or [withAny], a
    [Symbol.hasInstance] method) threw on the subject: the matcher itself
    throws nothing.  If these predicates all answer, the chain returns, and
    the [otherwise] after it throws the exhaustiveness error or nothing.
    Handlers are taken to return, as everywhere. *)
Theorem typed_chain_returns (cs : list Call) (this : Match) (log : list Event)
    (fallback : Matcher) :
  Forall (fun c => elements_typed_call c = true) cs ->
  (forall e, fst (chain cs this log) = Throw e ->
     exists c p, In c cs /\ In p (guards_of c) /\
                 guard_test p (value this) = Throw e) /\
  (Forall (fun c => Forall (fun p => exists b, guard_test p (value this) = Ok b)
                           (guards_of c)) cs ->
   (exists this', fst (chain cs this log) = Ok this') /\
   forall e, fst (bind (chain cs this) (otherwise fallback) log) = Throw e ->
             e = NonExhaustive).
Proof.
  intros Hcs.
  assert (Hthrows : forall e, fst (chain cs this log) = Throw e ->
     exists c p, In c cs /\ In p (guards_of c) /\
                 guard_test p (value this) = Throw e).
  { intros e He. apply chain_throws in He as (c & Hin & Hp).
    rewrite Forall_forall in Hcs.
    destruct (predicate_throws c _ e (Hcs _ Hin) Hp) as (p & Hg & Ht). eauto. }
  split; [exact Hthrows|].
  intros Hanswer.
  assert (Hret : exists this', fst (chain cs this log) = Ok this').
  { destruct (fst (chain cs this log)) as [this'|e] eqn:E; [eauto|].
    destruct (Hthrows e eq_refl) as (c & p & Hin & Hg & Ht).
    rewrite Forall_forall in Hanswer. pose proof (Hanswer _ Hin) as Hc.
    rewrite Forall_forall in Hc. destruct (Hc _ Hg) as [b Hb]. congruence. }
  split; [exact Hret|].
  destruct Hret as [this' E]. intros e. unfold bind.
  destruct (chain cs this log) as [r log'] eqn:Ec. simpl in E. subst r.
  rewrite otherwise_run. simpl.
  destruct (exhaustiveCheck this' && negb (matched this')); [|discriminate].
  intros H; inversion H; reflexivity.
Qed.

(** A typed shape and a typed array pattern on [[7, 8]]; and the shape
    [{elements: "ab"}], which is not typed: on [[1, 2, 3]] it throws a
    TypeError, on [[1]] it answers [false]. *)
Lemma typed_chain_returns_witness :
  let cs := [Call_withShape (object 1 [("elements", array 2 [num 1])]) 1;
             Call_withArray (object 3 [("length", num 2)]) 2] in
  let untyped := Call_withShape (object 5 [("elements", VStr "ab")]) 1 in
  Forall (fun c => elements_typed_call c = true) cs /\
  (exists this', fst (chain cs (match_ (array 4 [num 7; num 8])) []) = Ok this') /\
  elements_typed_call untyped = false /\
  fst (chain [untyped] (match_ (array 6 [num 1; num 2; num 3])) []) = Throw TypeError /\
  fst (chain [untyped] (match_ (array 6 [num 1])) []) = Ok (match_ (array 6 [num 1])).
Proof.
  assert (Hcs : Forall (fun c => elements_typed_call c = true)
            [Call_withShape (object 1 [("elements", array 2 [num 1])]) 1;
             Call_withArray (object 3 [("length", num 2)]) 2])
    by (repeat constructor).
  split; [exact Hcs|]. split; [|repeat split; reflexivity].
  apply (proj2 (typed_chain_returns _ (match_ (array 4 [num 7; num 8])) [] 0 Hcs)).
  repeat constructor.
Defined.



(** ** The matcher sees structure only *)


Lemma typeof_anonymous (v : Value) : typeof (anonymous v) = typeof v.
Proof. now destruct v as [| | | | | |? [? ?] ?]. Qed.





















(** ** A value as its own pattern *)




